(** * Github Release Fetcher (grf.py): a shallow embedding and its properties

    The script resolves a repository reference to a release endpoint,
    filters the release's assets and downloads them with resume support.
    The pure parts (reference resolution, asset selection) are embedded as
    functions; the download engine runs in a small state-and-exception
    monad over an explicit world (files on disk, the clock, the trace of
    effects), with the network and the clock given by an environment. *)

From Stdlib Require Import ZArith QArith DecimalString Ascii Lqa.
From stdpp Require Import gmap strings list.

Local Open Scope Z_scope.
Local Open Scope string_scope.

(** ** Python's string operations *)

Module Py.

(** [s.startswith(p)] *)
Definition startswith (s p : string) : bool := String.prefix p s.

(** [s[n:]] *)
Fixpoint slice_from (n : nat) (s : string) : string :=
  match n, s with
  | O, _ => s
  | S _, EmptyString => EmptyString
  | S k, String _ s' => slice_from k s'
  end.

(** [sub in s] *)
Fixpoint contains (sub s : string) : bool :=
  String.prefix sub s ||
  match s with
  | EmptyString => false
  | String _ s' => contains sub s'
  end.

(** [s.split(sep)] for a non-empty separator (both call sites pass a
    constant one): the text is scanned from the left, [cur] is the piece
    being read, and [skip] counts the characters of a separator, found one
    step earlier, that are still to be passed over. *)
Fixpoint split_go (sep : string) (skip : nat) (cur s : string) : list string :=
  match s with
  | EmptyString => [cur]
  | String c s' =>
      match skip with
      | S k => split_go sep k cur s'
      | O =>
          if String.prefix sep s
          then cur :: split_go sep (String.length sep - 1) "" s'
          else split_go sep 0 (cur +:+ String c "") s'
      end
  end.

Definition split (s sep : string) : list string := split_go sep 0 "" s.

(** [c in chars], for a character *)
Fixpoint char_in (c : Ascii.ascii) (chars : string) : bool :=
  match chars with
  | EmptyString => false
  | String d chars' => Ascii.eqb c d || char_in c chars'
  end.

Fixpoint lstrip (s chars : string) : string :=
  match s with
  | EmptyString => EmptyString
  | String c s' => if char_in c chars then lstrip s' chars else s
  end.

Fixpoint rstrip (s chars : string) : string :=
  match s with
  | EmptyString => EmptyString
  | String c s' =>
      match rstrip s' chars with
      | EmptyString => if char_in c chars then EmptyString else String c ""
      | r => String c r
      end
  end.

(** [s.strip(chars)] *)
Definition strip (s chars : string) : string := rstrip (lstrip s chars) chars.

(** [l[-1]] of a list of strings ([split] never returns an empty list) *)
Definition last_item (l : list string) : string := List.last l "".

(** Truth value of an optional string: [None] and [""] are false. *)
Definition truthy_str (o : option string) : bool :=
  match o with
  | Some (String _ _) => true
  | _ => false
  end.

(** Truth value of an optional integer: [None] and [0] are false. *)
Definition truthy_int (o : option Z) : bool :=
  match o with
  | Some n => negb (Z.eqb n 0)
  | None => false
  end.

(** Truth value of an optional list: [None] and [[]] are false. *)
Definition truthy_list {A} (o : option (list A)) : bool :=
  match o with
  | Some (_ :: _) => true
  | _ => false
  end.

(** [str(n)] for an integer *)
Definition str_int (n : Z) : string := NilZero.string_of_int (Z.to_int n).

(** [os.path.join(a, b)] on POSIX *)
Definition path_join (a b : string) : string :=
  if startswith b "/" then b
  else if (String.eqb a "" || String.eqb (slice_from (String.length a - 1) a) "/")%bool
       then a +:+ b
       else a +:+ "/" +:+ b.

End Py.


(** ** Data model *)

(** An entry of the manifest's ["assets"] array. *)
Record asset := Asset {
  asset_name : string;            (* asset["name"] *)
  asset_size : Z;                 (* asset["size"] *)
  asset_url : string              (* asset["browser_download_url"] *)
}.

(** The release manifest: ["tag_name"] and the optional ["assets"]. *)
Record release_data := ReleaseData {
  tag_name : string;
  assets : option (list asset)
}.

(** The exceptions that reach the code. [HTTPError] and [URLError] are the
    two classes named by the [except] clauses; [SystemExit] is what
    [sys.exit] raises. *)
Inductive exn :=
  | HTTPError (code : Z)
  | URLError (reason : string)
  | ZeroDivisionError
  | OSError (what : string)
  | ValueError (what : string)
  | SystemExit (code : Z).

(** [except (HTTPError, URLError)] *)
Definition is_transport (e : exn) : bool :=
  match e with
  | HTTPError _ | URLError _ => true
  | _ => false
  end.

Record request := Request {
  req_url : string;
  req_headers : list (string * string)
}.

(** What successive calls of [response.read(chunk_size)] produce: a chunk
    of at most [chunk_size] bytes, or an exception. The end of the list,
    like an empty chunk, is the end of the stream. *)
Inductive read_result :=
  | Chunk (data : list Byte.byte)
  | ReadError (e : exn).

Record response := Response {
  content_length : option Z;      (* the Content-Length header, if any,
                                     as the integer [int] makes of it *)
  reads : list read_result
}.

Inductive urlopen_result :=
  | Opened (r : response)
  | Refused (e : exn).

Inductive open_mode := AB | WB.

(** One constructor per message the script prints; sizes and speeds are
    kept as numbers ([format_size] and [format_speed] only render them). *)
Inductive message :=
  | MsgAlreadyExists (target_path : string)
  | MsgProgress (bytes_so_far file_size : Z) (percent_complete download_speed : Q)
  | MsgNewline
  | MsgSizeMismatch (target_path : string)
  | MsgDone (target_path : string)
  | MsgDownloadFailed (target_path : string) (e : exn)
  | MsgInvalidApiUrl
  | MsgInvalidRepoUrl
  | MsgConflictingTags (url_release_tag release_tag : string)
  | MsgUnsupportedUrl
  | MsgFetchError (e : exn)
  | MsgFilterConflict
  | MsgRelease (release_tag : string)
  | MsgFiles
  | MsgListing (name : string) (size : Z)
  | MsgDownloadingTo (output_dir : string)
  | MsgDownloading (name : string) (size : Z).

Inductive event :=
  | EvRequest (r : request)                       (* urllib.request.urlopen *)
  | EvOpen (path : string) (mode : open_mode)     (* open(path, mode) *)
  | EvPrint (m : message).                        (* print, sys.stdout.write *)

(** The world the script acts on: the files on disk, the number of clock
    readings taken and the effects so far, oldest first. *)
Record world := World {
  files : gmap string (list Byte.byte);
  ticks : nat;
  trace : list event
}.

(** What the script cannot decide: how the server answers the n-th
    request, what the clock shows at the n-th reading, and how
    [json.loads] reads a body. *)
Record env := Env {
  server : nat -> request -> urlopen_result;
  clock : nat -> Q;
  json_loads : list Byte.byte -> option release_data
}.

Fixpoint requests_of (tr : list event) : list request :=
  match tr with
  | [] => []
  | EvRequest r :: tr' => r :: requests_of tr'
  | _ :: tr' => requests_of tr'
  end.

Fixpoint messages_of (tr : list event) : list message :=
  match tr with
  | [] => []
  | EvPrint m :: tr' => m :: messages_of tr'
  | _ :: tr' => messages_of tr'
  end.

(** ** The monad: state with exceptions; the world survives an exception *)

Inductive result (A : Type) :=
  | Ret (a : A)
  | Exc (e : exn).
Arguments Ret {A} a.
Arguments Exc {A} e.

Definition M (A : Type) : Type := world -> result A * world.

Definition ret {A} (a : A) : M A := fun w => (Ret a, w).

Definition raise {A} (e : exn) : M A := fun w => (Exc e, w).

Definition bind {A B} (m : M A) (k : A -> M B) : M B :=
  fun w =>
    match m w with
    | (Ret a, w') => k a w'
    | (Exc e, w') => (Exc e, w')
    end.

(** [try: m  except <classes h answers to> as e: h e] *)
Definition try_except {A} (m : M A) (h : exn -> option (M A)) : M A :=
  fun w =>
    match m w with
    | (Ret a, w') => (Ret a, w')
    | (Exc e, w') =>
        match h e with
        | Some k => k w'
        | None => (Exc e, w')
        end
    end.

Notation "x <- c ;; k" := (bind c (fun x => k))
  (at level 100, c at next level, right associativity).
Notation "c ;; k" := (bind c (fun _ => k))
  (at level 100, right associativity).

Definition emit (ev : event) : M unit :=
  fun w => (Ret tt, World (files w) (ticks w) (trace w ++ [ev])%list).

Definition print (m : message) : M unit := emit (EvPrint m).

(** [sys.exit(code)] *)
Definition sys_exit {A} (code : Z) : M A := raise (SystemExit code).

Definition os_path_exists (path : string) : M bool :=
  fun w => (Ret (bool_decide (is_Some (files w !! path))), w).

Definition os_path_getsize (path : string) : M Z :=
  fun w =>
    match files w !! path with
    | Some c => (Ret (Z.of_nat (length c)), w)
    | None => (Exc (OSError path), w)
    end.

(** [urllib.request.urlopen(req)]: the request is issued, and the server
    answers with a response or the call raises. *)
Definition urlopen (E : env) (req : request) : M response :=
  fun w =>
    let w' := World (files w) (ticks w) (trace w ++ [EvRequest req])%list in
    match server E (length (requests_of (trace w))) req with
    | Opened r => (Ret r, w')
    | Refused e => (Exc e, w')
    end.

(** [open(path, mode)]: "wb" creates or truncates, "ab" creates the file
    when it is missing and leaves it alone otherwise. *)
Definition open_file (path : string) (mode : open_mode) : M unit :=
  fun w =>
    let fs :=
      match mode, files w !! path with
      | AB, Some _ => files w
      | _, _ => <[path := []]> (files w)
      end in
    (Ret tt, World fs (ticks w) (trace w ++ [EvOpen path mode])%list).

(** [target_file.write(chunk)] on a file opened by [open_file]: the bytes
    go to the end of the file. *)
Definition file_write (path : string) (chunk : list Byte.byte) : M unit :=
  fun w =>
    (Ret tt,
     World (<[path := (default [] (files w !! path) ++ chunk)%list]> (files w))
           (ticks w) (trace w)).

(** [time.time()] *)
Definition time_time (E : env) : M Q :=
  fun w => (Ret (clock E (ticks w)), World (files w) (S (ticks w)) (trace w)).

(** ** fetch_release_data *)

Definition api_prefix : string := "https://api.github.com/repos/".
Definition web_prefix : string := "https://github.com/".
Definition tag_marker : string := "releases/tag/".

(** Lines 98-123: the reference is normalised to owner, repo and the
    release tag to ask for, or rejected with the message printed before
    [sys.exit(1)]. No effect takes place here. *)
Definition resolve (repo_url : string) (release_tag : option string)
  : message + (string * string * option string) :=
  if Py.startswith repo_url api_prefix then
    let parts := Py.split (Py.slice_from (String.length api_prefix) repo_url) "/" in
    if (length parts <? 2)%nat then inl MsgInvalidApiUrl
    else
      let owner := nth 0 parts "" in
      let repo := nth 1 parts "" in
      inr (owner, repo, release_tag)
  else if Py.startswith repo_url web_prefix then
    let parts := Py.split (Py.slice_from (String.length web_prefix) repo_url) "/" in
    if (length parts <? 2)%nat then inl MsgInvalidRepoUrl
    else
      let owner := nth 0 parts "" in
      let repo := nth 1 parts "" in
      if Py.contains tag_marker repo_url then
        let url_release_tag :=
          Py.strip (Py.last_item (Py.split repo_url tag_marker)) "/" in
        match release_tag with
        | Some (String _ _ as requested) =>
            if String.eqb requested url_release_tag
            then inr (owner, repo, Some url_release_tag)
            else inl (MsgConflictingTags url_release_tag requested)
        | _ => inr (owner, repo, Some url_release_tag)
        end
      else inr (owner, repo, release_tag)
  else inl MsgUnsupportedUrl.

(** Lines 125-130: the endpoint asked for. *)
Definition api_url_of (owner repo : string) (release_tag : option string) : string :=
  let api_url := "https://api.github.com/repos/" +:+ owner +:+ "/" +:+ repo +:+ "/releases" in
  match release_tag with
  | Some (String _ _ as tag) => api_url +:+ "/tags/" +:+ tag
  | _ => api_url +:+ "/latest"
  end.

(** [response.read()]: everything up to the end of the stream. *)
Fixpoint read_all (rs : list read_result) : M (list Byte.byte) :=
  match rs with
  | [] => ret []
  | ReadError e :: _ => raise e
  | Chunk [] :: _ => ret []
  | Chunk data :: rs' => rest <- read_all rs' ;; ret (data ++ rest)%list
  end.

Definition fetch_release_data (E : env) (repo_url : string)
    (release_tag : option string) : M release_data :=
  match resolve repo_url release_tag with
  | inl msg => print msg ;; sys_exit 1
  | inr (owner, repo, release_tag) =>
      let api_url := api_url_of owner repo release_tag in
      try_except
        (response <- urlopen E (Request api_url []) ;;
         body <- read_all (reads response) ;;
         match json_loads E body with
         | Some data => ret data
         | None => raise (ValueError "json.loads")
         end)
        (fun e =>
           if is_transport e
           then Some (print (MsgFetchError e) ;; sys_exit 1)
           else None)
  end.

(** ** filter_assets *)

Definition filter_assets (assets : list asset)
    (include exclude : option (list string)) : M (list asset) :=
  if Py.truthy_list include && Py.truthy_list exclude then
    print MsgFilterConflict ;; sys_exit 1
  else if Py.truthy_list include then
    ret (filter (fun a => asset_name a ∈ default [] include) assets)
  else if Py.truthy_list exclude then
    ret (filter (fun a => asset_name a ∉ default [] exclude) assets)
  else ret assets.

(** ** download_file_with_progress *)

(** [a / b] on numbers: an exception when [b] is zero. The quotient is
    kept as an exact rational. *)
Definition py_div (a b : Z) : M Q :=
  if Z.eqb b 0 then raise ZeroDivisionError
  else ret (inject_Z a / inject_Z b)%Q.

(** Line 75: [bytes_so_far / elapsed_time if elapsed_time > 0 else 0] *)
Definition speed_of (bytes_so_far : Z) (elapsed_time : Q) : Q :=
  if Qle_bool elapsed_time 0 then 0%Q
  else (inject_Z bytes_so_far / elapsed_time)%Q.

(** Lines 64-83: the loop over the chunks of the response. *)
Fixpoint stream (E : env) (target_path : string) (file_size : Z)
    (start_time : Q) (bytes_so_far : Z) (rs : list read_result) : M unit :=
  match rs with
  | [] => ret tt
  | ReadError e :: _ => raise e
  | Chunk [] :: _ => ret tt
  | Chunk chunk :: rs' =>
      file_write target_path chunk ;;
      let bytes_so_far := bytes_so_far + Z.of_nat (length chunk) in
      ratio <- py_div bytes_so_far file_size ;;
      let percent_complete := (ratio * 100)%Q in
      now <- time_time E ;;
      let elapsed_time := (now - start_time)%Q in
      let download_speed := speed_of bytes_so_far elapsed_time in
      print (MsgProgress bytes_so_far file_size percent_complete download_speed) ;;
      stream E target_path file_size start_time bytes_so_far rs'
  end.

Definition range_header (existing_size : Z) : string * string :=
  ("Range", "bytes=" +:+ Py.str_int existing_size +:+ "-").

(** Lines 44-56: what to ask for and how to open the target; [None] is
    the early [return] of line 49. *)
Definition prepare (url target_path : string) (expected_size : option Z)
  : M (option (request * open_mode * Z)) :=
  present <- os_path_exists target_path ;;
  if present then
    existing_size <- os_path_getsize target_path ;;
    if Py.truthy_int expected_size && bool_decide (Some existing_size = expected_size)
    then print (MsgAlreadyExists target_path) ;; ret None
    else ret (Some (Request url [range_header existing_size], AB, existing_size))
  else ret (Some (Request url [], WB, 0)).

(** Lines 58-85: the transfer. *)
Definition transfer (E : env) (target_path : string)
    (req : request) (mode : open_mode) (existing_size : Z) : M unit :=
  response <- urlopen E req ;;
  open_file target_path mode ;;
  let file_size := default 0 (content_length response) + existing_size in
  let bytes_so_far := existing_size in
  start_time <- time_time E ;;
  stream E target_path file_size start_time bytes_so_far (reads response) ;;
  print MsgNewline.

(** Lines 87-91: the size check. *)
Definition verify (target_path : string) (expected_size : option Z) : M unit :=
  if Py.truthy_int expected_size then
    actual <- os_path_getsize target_path ;;
    if bool_decide (Some actual = expected_size)
    then print (MsgDone target_path)
    else print (MsgSizeMismatch target_path)
  else print (MsgDone target_path).

(** The body of the [try] block. *)
Definition download_body (E : env) (url target_path : string)
    (expected_size : option Z) : M unit :=
  plan <- prepare url target_path expected_size ;;
  match plan with
  | None => ret tt
  | Some (req, mode, existing_size) =>
      transfer E target_path req mode existing_size ;;
      verify target_path expected_size
  end.

Definition download_file_with_progress (E : env) (url target_path : string)
    (expected_size : option Z) : M unit :=
  try_except (download_body E url target_path expected_size)
    (fun e =>
       if is_transport e
       then Some (print (MsgDownloadFailed target_path e))
       else None).

(** ** main *)

(** Lines 185-189: one download per selected asset, in order. *)
Fixpoint download_assets (E : env) (output_dir : string)
    (assets : list asset) : M unit :=
  match assets with
  | [] => ret tt
  | asset :: rest =>
      let file_url := asset_url asset in
      let file_path := Py.path_join output_dir (asset_name asset) in
      print (MsgDownloading (asset_name asset) (asset_size asset)) ;;
      download_file_with_progress E file_url file_path (Some (asset_size asset)) ;;
      download_assets E output_dir rest
  end.

Fixpoint print_listing (assets : list asset) : M unit :=
  match assets with
  | [] => ret tt
  | asset :: rest =>
      print (MsgListing (asset_name asset) (asset_size asset)) ;;
      print_listing rest
  end.

(** The parsed command line. *)
Record args := Args {
  arg_url : string;
  arg_release : option string;
  arg_download : bool;
  arg_output : string;
  arg_include : option (list string);
  arg_exclude : option (list string)
}.

(** [os.makedirs(output_dir, exist_ok=True)] has no counterpart: the disk
    is a map from paths to contents and has no directories. *)
Definition main (E : env) (a : args) : M unit :=
  data <- fetch_release_data E (arg_url a) (arg_release a) ;;
  let release_tag := tag_name data in
  selected <- filter_assets (default [] (assets data)) (arg_include a) (arg_exclude a) ;;
  print (MsgRelease release_tag) ;;
  print MsgFiles ;;
  print_listing selected ;;
  if arg_download a then
    let output_dir := Py.path_join (arg_output a) release_tag in
    print (MsgDownloadingTo output_dir) ;;
    download_assets E output_dir selected
  else ret tt.

(** ** format_size and format_speed *)

(** [a < b] on numbers *)
Definition Qltb (a b : Q) : bool := negb (Qle_bool b a).

(** Lines 26-30: the loop over the units. The result is the number that
    the f-string renders with two decimals, and the unit printed after
    it. The number is kept as an exact rational (a division by 1024 is
    exact in binary floating point for the sizes below 2^53). *)
Fixpoint format_size_units (units : list string) (size : Q) : Q * string :=
  match units with
  | [] => (size, "PB")
  | unit :: units' =>
      if Qltb size 1024 then (size, unit)
      else format_size_units units' (size / 1024)%Q
  end.

Definition format_size (size : Z) : Q * string :=
  format_size_units ["B"; "KB"; "MB"; "GB"; "TB"] (inject_Z size).

(** Lines 32-39, with the same reading of the result. *)
Definition format_speed (speed : Q) : Q * string :=
  if Qltb speed 1024 then (speed, "B/s")
  else if Qltb speed (1024 * 1024) then ((speed / 1024)%Q, "KB/s")
  else ((speed / (1024 * 1024))%Q, "MB/s").

(** ** Notions used to state the properties *)

Definition speed_units : list string := ["B/s"; "KB/s"; "MB/s"].

(** The bytes of a file, none when it is not on disk. *)
Definition on_disk (w : world) (path : string) : list Byte.byte :=
  default [] (files w !! path).

(** The paths a batch writes to. *)
Definition targets_of (output_dir : string) (assets : list asset) : list string :=
  map (fun a => Py.path_join output_dir (asset_name a)) assets.

(** The bytes [response.read] hands over before the stream ends, and the
    exception that ends it, if one does. *)
Fixpoint delivered (rs : list read_result) : list Byte.byte :=
  match rs with
  | Chunk (b :: data) :: rs' => (b :: data) ++ delivered rs'
  | _ => []
  end%list.

Fixpoint read_failure (rs : list read_result) : option exn :=
  match rs with
  | Chunk (_ :: _) :: rs' => read_failure rs'
  | ReadError e :: _ => Some e
  | _ => None
  end.

(** The exception that ends an exchange with the server, if one does:
    the one [urlopen] raises, or the one a read raises. *)
Definition answer_failure (r : urlopen_result) : option exn :=
  match r with
  | Refused e => Some e
  | Opened resp => read_failure (reads resp)
  end.

(** The files of [w] are still there in [w'], each with its old bytes in
    front: nothing was removed, truncated or overwritten. *)
Definition extends (w w' : world) : Prop :=
  ∀ p c, files w !! p = Some c → ∃ s, files w' !! p = Some (c ++ s)%list.

(** The [open] calls recorded in a trace. *)
Fixpoint opens_of (tr : list event) : list (string * open_mode) :=
  match tr with
  | [] => []
  | EvOpen p m :: tr' => (p, m) :: opens_of tr'
  | _ :: tr' => opens_of tr'
  end.

(** [sep.join(l)], the inverse of [split]. *)
Fixpoint join (sep : string) (l : list string) : string :=
  match l with
  | [] => ""
  | [x] => x
  | x :: l' => x +:+ sep +:+ join sep l'
  end.

(** Worlds and environments of the examples. *)
Definition abcde : list Byte.byte :=
  [Byte.x61; Byte.x62; Byte.x63; Byte.x64; Byte.x65].

Definition empty_world : world := World ∅ 0 [].

(** A clock that advances one second per reading. *)
Definition second_clock (n : nat) : Q := inject_Z (Z.of_nat n).

Definition no_json (body : list Byte.byte) : option release_data := None.

Definition world_with (path : string) (content : list Byte.byte) : world :=
  World {[ path := content ]} 0 [].

(** A server that gives every request the same answer. *)
Definition serves (r : response) : env :=
  Env (fun _ _ => Opened r) second_clock no_json.

(** Five bytes with an accurate Content-Length, and the same without the
    header (a chunked answer). *)
Definition five_bytes : response := Response (Some 5) [Chunk abcde].
Definition five_bytes_unsized : response := Response None [Chunk abcde].

(** A server that refuses the first request with a 404 and serves the
    later ones. *)
Definition refuses_first : env :=
  Env (fun n _ => match n with
                  | O => Refused (HTTPError 404)
                  | S _ => Opened five_bytes
                  end)
      second_clock no_json.

(** The resume scenario: forty bytes on disk out of a hundred declared,
    and a server that sends the other sixty. *)
Definition forty_on_disk : world :=
  world_with "out/v1.0/a.zip" (replicate 40 Byte.x00).

Definition sixty_more : response :=
  Response (Some 60) [Chunk (replicate 60 Byte.x01)].

(** A batch of two assets of five bytes each. *)
Definition two_assets : list asset :=
  [Asset "a.zip" 5 "https://h/a.zip"; Asset "b.zip" 5 "https://h/b.zip"].

(** The world after the announcement of an asset (line 188). *)
Definition announced (a : asset) (w : world) : world :=
  World (files w) (ticks w)
        (trace w ++ [EvPrint (MsgDownloading (asset_name a) (asset_size a))]).

(** The world after the report of a failed download (line 94). *)
Definition reported (target_path : string) (e : exn) (w : world) : world :=
  World (files w) (ticks w)
        (trace w ++ [EvPrint (MsgDownloadFailed target_path e)]).

(** An API server for the listing scenario: whatever is asked, the
    manifest of release v1.0 with two assets comes back. *)
Definition manifest_v1 : release_data :=
  ReleaseData "v1.0"
    (Some [Asset "a.zip" 100 "https://h/a.zip"; Asset "b.zip" 200 "https://h/b.zip"]).

Definition api_server : env :=
  Env (fun _ _ => Opened (Response None [Chunk abcde]))
      second_clock (fun _ => Some manifest_v1).

(** * Properties *)

(** ** Python's operations on examples *)

Example split_at_slash :
  Py.split "acme/tool/releases/tag/v2.0" "/" = ["acme"; "tool"; "releases"; "tag"; "v2.0"].
Proof. reflexivity. Qed.

Example split_at_marker :
  Py.split "https://github.com/a/b/releases/tag/v1/" "releases/tag/"
    = ["https://github.com/a/b/"; "v1/"].
Proof. reflexivity. Qed.

Example split_keeps_empty_pieces : Py.split "a//" "/" = ["a"; ""; ""].
Proof. reflexivity. Qed.

Example strip_both_ends : Py.strip "//v1/x//" "/" = "v1/x".
Proof. reflexivity. Qed.

Example path_join_plain : Py.path_join "./v1.0" "a.zip" = "./v1.0/a.zip".
Proof. reflexivity. Qed.

Example path_join_trailing_slash : Py.path_join "out/" "a.zip" = "out/a.zip".
Proof. reflexivity. Qed.

Example range_header_forty : range_header 40 = ("Range", "bytes=40-").
Proof. reflexivity. Qed.

(** ** Asset selection *)

Lemma sublist_filter_max {A} (P : A → Prop) `{!∀ x, Decision (P x)} (l k : list A) :
  l `sublist_of` k → Forall P l → l `sublist_of` filter P k.
Proof.
  induction 1 as [|x l1 l2 _ IH|x l1 l2 _ IH]; intros HP.
  - constructor.
  - apply Forall_cons in HP as [Hx HP].
    rewrite filter_cons_True by done. constructor. auto.
  - destruct (decide (P x)).
    + rewrite filter_cons_True by done. constructor. auto.
    + rewrite filter_cons_False by done. auto.
Qed.

(** C7: with a non-empty include list (and no exclude list), selection
    returns, without error and without any effect, an order-preserving
    subsequence of the assets holding exactly those whose name is in the
    include list: an asset is selected iff it is in the input and its name
    is included, and every subsequence of the input made of included names
    only is a subsequence of the selection. Names that match no asset
    change nothing. *)
Theorem filter_assets_include (assets : list asset) (include : list string)
    (exclude : option (list string)) (w : world) :
  include ≠ [] →
  Py.truthy_list exclude = false →
  ∃ selected,
    filter_assets assets (Some include) exclude w = (Ret selected, w) ∧
    selected `sublist_of` assets ∧
    (∀ a, a ∈ selected ↔ a ∈ assets ∧ asset_name a ∈ include) ∧
    (∀ l, l `sublist_of` assets →
          Forall (λ a, asset_name a ∈ include) l → l `sublist_of` selected).
Proof.
  intros Hne Hex.
  exists (filter (λ a, asset_name a ∈ include) assets).
  split; [|split; [|split]].
  - unfold filter_assets. rewrite Hex.
    destruct include as [|i include]; [done|]. reflexivity.
  - apply sublist_filter.
  - intros a. rewrite list_elem_of_filter. tauto.
  - intros l Hl HP. by apply sublist_filter_max.
Qed.

Lemma filter_assets_include_witness :
  ∃ selected,
    filter_assets
      [Asset "a.zip" 100 "https://h/a.zip"; Asset "b.zip" 200 "https://h/b.zip";
       Asset "c.zip" 300 "https://h/c.zip"]
      (Some ["c.zip"; "nothing.zip"; "a.zip"]) None empty_world
    = (Ret selected, empty_world) ∧
    selected `sublist_of`
      [Asset "a.zip" 100 "https://h/a.zip"; Asset "b.zip" 200 "https://h/b.zip";
       Asset "c.zip" 300 "https://h/c.zip"] ∧
    (∀ a, a ∈ selected ↔
          a ∈ [Asset "a.zip" 100 "https://h/a.zip"; Asset "b.zip" 200 "https://h/b.zip";
               Asset "c.zip" 300 "https://h/c.zip"] ∧
          asset_name a ∈ ["c.zip"; "nothing.zip"; "a.zip"]) ∧
    (∀ l, l `sublist_of`
            [Asset "a.zip" 100 "https://h/a.zip"; Asset "b.zip" 200 "https://h/b.zip";
             Asset "c.zip" 300 "https://h/c.zip"] →
          Forall (λ a, asset_name a ∈ ["c.zip"; "nothing.zip"; "a.zip"]) l →
          l `sublist_of` selected).
Proof.
  apply (filter_assets_include _ ["c.zip"; "nothing.zip"; "a.zip"] None empty_world).
  - discriminate.
  - reflexivity.
Defined.

(** ** Traces and files *)

Lemma requests_of_app (tr1 tr2 : list event) :
  requests_of (tr1 ++ tr2) = (requests_of tr1 ++ requests_of tr2)%list.
Proof.
  induction tr1 as [|[r|p m|m] tr1 IH]; simpl; [done|..]; by rewrite IH.
Qed.

Lemma opens_of_app (tr1 tr2 : list event) :
  opens_of (tr1 ++ tr2) = (opens_of tr1 ++ opens_of tr2)%list.
Proof.
  induction tr1 as [|[r|p m|m] tr1 IH]; simpl; [done|..]; by rewrite IH.
Qed.

Lemma requests_of_prints (ms : list message) : requests_of (map EvPrint ms) = [].
Proof. induction ms; simpl; auto. Qed.

Lemma opens_of_prints (ms : list message) : opens_of (map EvPrint ms) = [].
Proof. induction ms; simpl; auto. Qed.

Lemma extends_refl (w : world) : extends w w.
Proof. intros p c Hp. exists []. by rewrite app_nil_r. Qed.

Lemma extends_trans (w1 w2 w3 : world) :
  extends w1 w2 → extends w2 w3 → extends w1 w3.
Proof.
  intros H12 H23 p c Hp.
  destruct (H12 p c Hp) as [s Hs]. destruct (H23 p _ Hs) as [s' Hs'].
  exists (s ++ s')%list. by rewrite app_assoc.
Qed.

Lemma extends_same_files (w w' : world) : files w' = files w → extends w w'.
Proof. intros Hf p c Hp. exists []. by rewrite Hf, app_nil_r. Qed.

Lemma extends_append (w w' : world) (p : string) (c k : list Byte.byte) :
  files w !! p = Some c →
  files w' = <[p := (c ++ k)%list]> (files w) →
  extends w w'.
Proof.
  intros Hp Hf q d Hq. rewrite Hf.
  destruct (decide (p = q)) as [->|Hne].
  - rewrite lookup_insert_eq. exists k. congruence.
  - rewrite lookup_insert_ne by done. exists []. by rewrite app_nil_r.
Qed.

(** ** The streaming loop *)

Section Stream.
Context (E : env) (target_path : string) (file_size : Z) (start_time : Q).

(** Whatever the reads bring, the loop only prints and only appends to
    the target. *)
Lemma stream_frame (rs : list read_result) :
  ∀ (bytes_so_far : Z) (w : world) (c : list Byte.byte),
    files w !! target_path = Some c →
    ∃ ms k,
      trace (stream E target_path file_size start_time bytes_so_far rs w).2
        = (trace w ++ map EvPrint ms)%list ∧
      files (stream E target_path file_size start_time bytes_so_far rs w).2
        = <[target_path := (c ++ k)%list]> (files w).
Proof.
  induction rs as [|[[|b data]|e] rs IH]; intros bytes_so_far w c Hc.
  - exists [], []. simpl. rewrite !app_nil_r. by rewrite insert_id.
  - exists [], []. simpl. rewrite !app_nil_r. by rewrite insert_id.
  - cbn [stream]. unfold bind, file_write, py_div, time_time, print, emit.
    destruct (Z.eqb file_size 0).
    + exists [], (b :: data). cbn. rewrite Hc, app_nil_r. done.
    + cbn [ret raise files ticks trace].
      match goal with
      | |- context [stream _ _ _ _ ?bsf rs ?w1] =>
          destruct (IH bsf w1 (c ++ b :: data)%list) as (ms & k & Htr & Hf)
      end.
      { cbn. rewrite Hc. cbn. by rewrite lookup_insert_eq. }
      rewrite Htr, Hf. cbn [files trace]. rewrite Hc. cbn [default].
      eexists (_ :: ms), (b :: data ++ k)%list. split.
      * rewrite <- app_assoc. reflexivity.
      * rewrite insert_insert_eq. by rewrite <- app_assoc.
  - exists [], []. simpl. rewrite !app_nil_r. by rewrite insert_id.
Qed.

(** With no failing read and a non-zero total, the loop ends normally
    after writing every byte delivered. *)
Lemma stream_clean (rs : list read_result) :
  ∀ (bytes_so_far : Z) (w : world) (c : list Byte.byte),
    file_size ≠ 0 →
    read_failure rs = None →
    files w !! target_path = Some c →
    (stream E target_path file_size start_time bytes_so_far rs w).1 = Ret tt ∧
    files (stream E target_path file_size start_time bytes_so_far rs w).2
      = <[target_path := (c ++ delivered rs)%list]> (files w).
Proof.
  intros bytes_so_far w c Hfs. revert bytes_so_far w c.
  induction rs as [|[[|b data]|e] rs IH]; intros bytes_so_far w c Hrf Hc.
  - simpl. rewrite app_nil_r. by rewrite insert_id.
  - simpl. rewrite app_nil_r. by rewrite insert_id.
  - cbn [stream]. unfold bind, file_write, py_div, time_time, print, emit.
    apply Z.eqb_neq in Hfs. rewrite Hfs.
    cbn [ret files ticks trace].
    match goal with
    | |- context [stream _ _ _ _ ?bsf rs ?w1] =>
        destruct (IH bsf w1 (c ++ b :: data)%list) as (Hr & Hf)
    end.
    { exact Hrf. }
    { cbn. rewrite Hc. cbn. by rewrite lookup_insert_eq. }
    rewrite Hr, Hf. cbn [files]. rewrite Hc. cbn [default delivered].
    split; [done|].
    rewrite insert_insert_eq. by rewrite <- app_assoc.
  - discriminate.
Qed.

(** A stream that delivers nothing leaves the world as it is. *)
Lemma stream_nothing (rs : list read_result) (bytes_so_far : Z) (w : world) :
  read_failure rs = None →
  delivered rs = [] →
  stream E target_path file_size start_time bytes_so_far rs w = (Ret tt, w).
Proof.
  destruct rs as [|[[|b data]|e] rs]; simpl; try done.
Qed.
End Stream.

(** ** The steps of a download *)

Lemma prepare_fresh (url target_path : string) (expected_size : option Z) (w : world) :
  files w !! target_path = None →
  prepare url target_path expected_size w = (Ret (Some (Request url [], WB, 0)), w).
Proof.
  intros Hp. unfold prepare, bind, os_path_exists. cbn.
  rewrite bool_decide_eq_false_2; [done|].
  rewrite Hp. by intros [? ?].
Qed.

Lemma prepare_complete (url target_path : string) (expected_size : option Z)
    (w : world) (c : list Byte.byte) :
  files w !! target_path = Some c →
  Py.truthy_int expected_size = true →
  expected_size = Some (Z.of_nat (length c)) →
  prepare url target_path expected_size w =
    (Ret None,
     World (files w) (ticks w) (trace w ++ [EvPrint (MsgAlreadyExists target_path)])).
Proof.
  intros Hp Ht He. unfold prepare, bind, os_path_exists, os_path_getsize. cbn.
  rewrite bool_decide_eq_true_2 by (rewrite Hp; eauto).
  rewrite Hp, Ht. cbn.
  rewrite bool_decide_eq_true_2 by done. reflexivity.
Qed.

Lemma prepare_resume (url target_path : string) (expected_size : option Z)
    (w : world) (c : list Byte.byte) :
  files w !! target_path = Some c →
  Py.truthy_int expected_size && bool_decide (Some (Z.of_nat (length c)) = expected_size) = false →
  prepare url target_path expected_size w =
    (Ret (Some (Request url [range_header (Z.of_nat (length c))], AB, Z.of_nat (length c))), w).
Proof.
  intros Hp Hn. unfold prepare, bind, os_path_exists, os_path_getsize. cbn.
  rewrite bool_decide_eq_true_2 by (rewrite Hp; eauto).
  rewrite Hp, Hn. reflexivity.
Qed.

(** A transfer issues its one request first; after that it only opens the
    target in the given mode, prints and appends to the target. *)
Lemma transfer_frame (E : env) (target_path : string) (req : request)
    (mode : open_mode) (existing_size : Z) (w : world) (c : list Byte.byte) :
  (mode = AB ∧ files w !! target_path = Some c) ∨
  (mode = WB ∧ files w !! target_path = None ∧ c = []) →
  ∃ tr k,
    trace (transfer E target_path req mode existing_size w).2
      = (trace w ++ EvRequest req :: tr)%list ∧
    requests_of tr = [] ∧
    Forall (λ o, o = (target_path, mode)) (opens_of tr) ∧
    (∀ resp, server E (length (requests_of (trace w))) req = Opened resp →
             opens_of tr = [(target_path, mode)]) ∧
    (files (transfer E target_path req mode existing_size w).2
       = <[target_path := (c ++ k)%list]> (files w) ∨
     files (transfer E target_path req mode existing_size w).2 = files w).
Proof.
  intros Hmode. unfold transfer, bind, urlopen.
  destruct (server E _ req) as [resp|e] eqn:Hsrv.
  - unfold open_file, time_time. cbn [files ticks trace].
    match goal with
    | |- context [stream E target_path ?fs ?st ?b ?rs ?w1] =>
        destruct (stream_frame E target_path fs st rs b w1 c) as (ms & k & Htr & Hf);
        [|destruct (stream E target_path fs st b rs w1) as [[[]|e] w2] eqn:Hs]
    end.
    + cbn [files]. destruct Hmode as [[-> Hp]|(-> & Hp & ->)].
      * by rewrite Hp.
      * by rewrite lookup_insert_eq.
    + cbn [snd] in Htr, Hf. cbn [print emit snd trace files].
      rewrite Htr, Hf. cbn [trace files].
      exists (EvOpen target_path mode :: map EvPrint (ms ++ [MsgNewline])), k.
      split; [|split; [|split; [|split]]].
      * rewrite map_app. cbn. rewrite <- !app_assoc. reflexivity.
      * cbn. apply requests_of_prints.
      * cbn. rewrite opens_of_prints. by constructor.
      * intros _ _. cbn. by rewrite opens_of_prints.
      * left. destruct Hmode as [[-> Hp]|(-> & Hp & ->)].
        -- by rewrite Hp.
        -- by rewrite insert_insert_eq.
    + cbn [snd] in Htr, Hf. cbn [snd]. rewrite Htr, Hf. cbn [trace files].
      exists (EvOpen target_path mode :: map EvPrint ms), k.
      split; [|split; [|split; [|split]]].
      * rewrite <- !app_assoc. reflexivity.
      * cbn. apply requests_of_prints.
      * cbn. rewrite opens_of_prints. by constructor.
      * intros _ _. cbn. by rewrite opens_of_prints.
      * left. destruct Hmode as [[-> Hp]|(-> & Hp & ->)].
        -- by rewrite Hp.
        -- by rewrite insert_insert_eq.
  - exists [], []. cbn. repeat split; auto. discriminate.
Qed.

(** The size check prints one verdict and touches nothing else. *)
Lemma verify_frame (target_path : string) (expected_size : option Z) (w : world) :
  ∃ tr,
    trace (verify target_path expected_size w).2 = (trace w ++ tr)%list ∧
    requests_of tr = [] ∧ opens_of tr = [] ∧
    files (verify target_path expected_size w).2 = files w.
Proof.
  unfold verify, bind, os_path_getsize, print, emit.
  destruct (Py.truthy_int expected_size).
  - destruct (files w !! target_path) as [c|].
    + case_bool_decide; eexists [_]; cbn; auto.
    + exists []. cbn. by rewrite app_nil_r.
  - eexists [_]; cbn; auto.
Qed.

Lemma extends_create (w w' : world) (p : string) (k : list Byte.byte) :
  files w !! p = None →
  files w' = <[p := k]> (files w) →
  extends w w'.
Proof.
  intros Hp Hf q d Hq. rewrite Hf. exists [].
  rewrite lookup_insert_ne by congruence. by rewrite app_nil_r.
Qed.

(** The [try] block on a target that is already on disk: the request, if
    any, is the ranged one; the target is only opened for appending, and
    only gains bytes at its end. *)
Lemma download_body_existing (E : env) (url target_path : string)
    (expected_size : option Z) (w : world) (c : list Byte.byte) :
  files w !! target_path = Some c →
  ∃ tr k,
    trace (download_body E url target_path expected_size w).2 = (trace w ++ tr)%list ∧
    files (download_body E url target_path expected_size w).2
      = <[target_path := (c ++ k)%list]> (files w) ∧
    Forall (λ o, o = (target_path, AB)) (opens_of tr) ∧
    requests_of tr =
      (if Py.truthy_int expected_size && bool_decide (Some (Z.of_nat (length c)) = expected_size)
       then []
       else [Request url [range_header (Z.of_nat (length c))]]) ∧
    (∀ resp,
       Py.truthy_int expected_size && bool_decide (Some (Z.of_nat (length c)) = expected_size)
         = false →
       server E (length (requests_of (trace w)))
              (Request url [range_header (Z.of_nat (length c))]) = Opened resp →
       opens_of tr = [(target_path, AB)]).
Proof.
  intros Hp. unfold download_body, bind.
  destruct (Py.truthy_int expected_size &&
            bool_decide (Some (Z.of_nat (length c)) = expected_size)) eqn:Hcond.
  - apply andb_true_iff in Hcond as [Ht He]. apply bool_decide_eq_true in He.
    rewrite (prepare_complete url target_path expected_size w c) by done.
    exists [EvPrint (MsgAlreadyExists target_path)], []. cbn.
    rewrite app_nil_r. rewrite insert_id by done. repeat split; auto. discriminate.
  - rewrite (prepare_resume url target_path expected_size w c) by done.
    set (req := Request url [range_header (Z.of_nat (length c))]).
    set (ex := Z.of_nat (length c)).
    destruct (transfer_frame E target_path req AB ex w c)
      as (tr & k & Htr & Hreq & Hop & Hop1 & Hf); [by left|].
    assert (Hf' : files (transfer E target_path req AB ex w).2
                  = <[target_path := (c ++ k)%list]> (files w) ∨
                  files (transfer E target_path req AB ex w).2
                  = <[target_path := (c ++ [])%list]> (files w)).
    { destruct Hf as [Hf|Hf]; [by left|right].
      rewrite Hf, app_nil_r. by rewrite insert_id. }
    clear Hf.
    destruct (transfer E target_path req AB ex w) as [[[]|e] w1] eqn:Ht; cbn [snd] in *.
    + destruct (verify_frame target_path expected_size w1) as (tr' & Htr' & Hreq' & Hop' & Hfv).
      rewrite Htr', Hfv, Htr.
      exists (EvRequest req :: tr ++ tr')%list.
      destruct Hf' as [Hf'|Hf']; eexists;
        (split; [|split; [|split; [|split]]]); try exact Hf'.
      all: try (rewrite <- app_assoc; reflexivity).
      all: try (intros resp _ Hsrv; apply Hop1 in Hsrv).
      all: cbn; rewrite ?opens_of_app, ?requests_of_app, ?Hop', ?Hreq', ?Hreq, ?app_nil_r; auto.
    + rewrite Htr.
      exists (EvRequest req :: tr).
      destruct Hf' as [Hf'|Hf']; eexists;
        (split; [|split; [|split; [|split]]]); try exact Hf'.
      all: try reflexivity.
      all: try (intros resp _ Hsrv; apply Hop1 in Hsrv).
      all: cbn; rewrite ?Hreq; auto.
Qed.

(** The [try] block on a target that is not on disk: one plain request;
    the target is created or the disk is left as it was. *)
Lemma download_body_fresh (E : env) (url target_path : string)
    (expected_size : option Z) (w : world) :
  files w !! target_path = None →
  ∃ tr,
    trace (download_body E url target_path expected_size w).2 = (trace w ++ tr)%list ∧
    requests_of tr = [Request url []] ∧
    (files (download_body E url target_path expected_size w).2 = files w ∨
     ∃ k, files (download_body E url target_path expected_size w).2
          = <[target_path := k]> (files w)).
Proof.
  intros Hp. unfold download_body, bind.
  rewrite prepare_fresh by done.
  destruct (transfer_frame E target_path (Request url []) WB 0 w [])
    as (tr & k & Htr & Hreq & Hop & _ & Hf); [right; auto|].
  destruct (transfer E target_path (Request url []) WB 0 w) as [[[]|e] w1] eqn:Ht;
    cbn [snd] in *.
  - destruct (verify_frame target_path expected_size w1) as (tr' & Htr' & Hreq' & Hop' & Hfv).
    rewrite Htr', Hfv, Htr.
    exists (EvRequest (Request url []) :: tr ++ tr')%list. split; [|split].
    + rewrite <- app_assoc. reflexivity.
    + cbn. rewrite requests_of_app, Hreq, Hreq'. reflexivity.
    + destruct Hf as [Hf|Hf]; [right; eauto|by left].
  - rewrite Htr. exists (EvRequest (Request url []) :: tr). split; [|split].
    + reflexivity.
    + cbn. by rewrite Hreq.
    + destruct Hf as [Hf|Hf]; [right; eauto|by left].
Qed.

(** What the [except] clause adds to the [try] block: a transport error
    becomes a printed report and a normal return; anything else passes. *)
Lemma download_handler (E : env) (url target_path : string)
    (expected_size : option Z) (w : world) :
  match download_body E url target_path expected_size w with
  | (Ret tt, w1) =>
      download_file_with_progress E url target_path expected_size w = (Ret tt, w1)
  | (Exc e, w1) =>
      download_file_with_progress E url target_path expected_size w =
        if is_transport e
        then (Ret tt, World (files w1) (ticks w1)
                            (trace w1 ++ [EvPrint (MsgDownloadFailed target_path e)]))
        else (Exc e, w1)
  end.
Proof.
  unfold download_file_with_progress, try_except.
  destruct (download_body E url target_path expected_size w) as [[[]|e] w1]; [done|].
  destruct (is_transport e); reflexivity.
Qed.

(** The function as a whole never shrinks or removes a file. *)
Lemma download_extends (E : env) (url target_path : string)
    (expected_size : option Z) (w : world) :
  extends w (download_file_with_progress E url target_path expected_size w).2.
Proof.
  assert (Hbody : extends w (download_body E url target_path expected_size w).2).
  { destruct (files w !! target_path) as [c|] eqn:Hp.
    - destruct (download_body_existing E url target_path expected_size w c Hp)
        as (tr & k & _ & Hf & _).
      by eapply extends_append.
    - destruct (download_body_fresh E url target_path expected_size w Hp)
        as (tr & _ & _ & [Hf|[k Hf]]).
      + by apply extends_same_files.
      + by eapply extends_create. }
  pose proof (download_handler E url target_path expected_size w) as Hh.
  destruct (download_body E url target_path expected_size w) as [[[]|e] w1];
    rewrite Hh; [done|].
  destruct (is_transport e); [|done].
  eapply extends_trans; [exact Hbody|]. by apply extends_same_files.
Qed.

(** A transfer whose reads all succeed, with a total that is not zero
    unless nothing is delivered, returns after writing every byte. *)
Lemma transfer_clean (E : env) (target_path : string) (req : request)
    (mode : open_mode) (existing_size : Z) (w : world) (c : list Byte.byte)
    (resp : response) :
  (mode = AB ∧ files w !! target_path = Some c) ∨
  (mode = WB ∧ files w !! target_path = None ∧ c = []) →
  server E (length (requests_of (trace w))) req = Opened resp →
  read_failure (reads resp) = None →
  default 0 (content_length resp) + existing_size ≠ 0 ∨ delivered (reads resp) = [] →
  (transfer E target_path req mode existing_size w).1 = Ret tt ∧
  files (transfer E target_path req mode existing_size w).2
    = <[target_path := (c ++ delivered (reads resp))%list]> (files w).
Proof.
  intros Hmode Hsrv Hrf Hsize. unfold transfer, bind, urlopen. rewrite Hsrv.
  unfold open_file, time_time. cbn [files ticks trace].
  match goal with
  | |- context [stream E target_path ?fs ?st ?b ?rs ?w1] =>
      assert (Hc : files w1 !! target_path = Some c);
      [|assert (Hs : (stream E target_path fs st b rs w1).1 = Ret tt ∧
                     files (stream E target_path fs st b rs w1).2
                     = <[target_path := (c ++ delivered rs)%list]> (files w1));
        [|destruct (stream E target_path fs st b rs w1) as [r w2]]]
  end.
  - cbn [files]. destruct Hmode as [[-> Hp]|(-> & Hp & ->)].
    + by rewrite Hp.
    + by rewrite lookup_insert_eq.
  - destruct Hsize as [Hsize|Hnil].
    + by apply stream_clean.
    + rewrite stream_nothing by done. cbn [fst snd]. rewrite Hnil, app_nil_r.
      split; [done|]. symmetry. by apply insert_id.
  - cbn [fst snd] in Hs. destruct Hs as [-> Hf]. cbn. split; [done|].
    rewrite Hf. cbn [files].
    destruct Hmode as [[-> Hp]|(-> & Hp & ->)].
    + by rewrite Hp.
    + by rewrite insert_insert_eq.
Qed.

(** The size check always returns when the target is on disk. With a
    declared size that is not zero its verdict compares the two sizes. *)
Lemma verify_verdict (target_path : string) (declared : Z) (w : world)
    (c : list Byte.byte) :
  files w !! target_path = Some c →
  declared ≠ 0 →
  verify target_path (Some declared) w =
    (Ret tt,
     World (files w) (ticks w)
           (trace w ++ [EvPrint (if bool_decide (Z.of_nat (length c) = declared)
                                 then MsgDone target_path
                                 else MsgSizeMismatch target_path)])).
Proof.
  intros Hp Hd. unfold verify, bind, os_path_getsize, print, emit, Py.truthy_int.
  apply Z.eqb_neq in Hd. rewrite Hd. cbn [negb]. rewrite Hp.
  repeat case_bool_decide; congruence.
Qed.

Lemma verify_returns (target_path : string) (expected_size : option Z) (w : world)
    (c : list Byte.byte) :
  files w !! target_path = Some c →
  (verify target_path expected_size w).1 = Ret tt.
Proof.
  intros Hp. unfold verify, bind, os_path_getsize, print, emit.
  destruct (Py.truthy_int expected_size); [|done].
  rewrite Hp. by case_bool_decide.
Qed.

(** ** The download engine *)

(** C1: when the target is on disk with fewer bytes than declared, the
    engine asks for the rest with the header [Range: bytes=<existing>-] and
    opens the target for appending; when the server answers and its reads
    succeed, with a Content-Length that is the length of the body, the call
    returns, the file is the old bytes followed by the body, and its size is
    the existing size plus the Content-Length. *)
Theorem resume_appends_from_offset (E : env) (url target_path : string)
    (declared : Z) (w : world) (c : list Byte.byte) (resp : response) (n : Z) :
  files w !! target_path = Some c →
  Z.of_nat (length c) < declared →
  server E (length (requests_of (trace w)))
         (Request url [("Range", "bytes=" +:+ Py.str_int (Z.of_nat (length c)) +:+ "-")])
    = Opened resp →
  read_failure (reads resp) = None →
  content_length resp = Some n →
  n = Z.of_nat (length (delivered (reads resp))) →
  ∃ tr,
    (download_file_with_progress E url target_path (Some declared) w).1 = Ret tt ∧
    trace (download_file_with_progress E url target_path (Some declared) w).2
      = (trace w ++ tr)%list ∧
    requests_of tr =
      [Request url [("Range", "bytes=" +:+ Py.str_int (Z.of_nat (length c)) +:+ "-")]] ∧
    opens_of tr = [(target_path, AB)] ∧
    files (download_file_with_progress E url target_path (Some declared) w).2
      = <[target_path := (c ++ delivered (reads resp))%list]> (files w) ∧
    Z.of_nat (length (c ++ delivered (reads resp))) = Z.of_nat (length c) + n.
Proof.
  intros Hp Hlt Hsrv Hrf Hcl Hn.
  assert (Hcond : Py.truthy_int (Some declared) &&
                  bool_decide (Some (Z.of_nat (length c)) = Some declared) = false).
  { rewrite bool_decide_eq_false_2; [apply andb_false_r|]. intros [=]. lia. }
  destruct (download_body_existing E url target_path (Some declared) w c Hp)
    as (tr & k & Htr & _ & _ & Hreq & Hop).
  rewrite Hcond in Hreq. specialize (Hop resp Hcond Hsrv).
  assert (Hbody : (download_body E url target_path (Some declared) w).1 = Ret tt ∧
                  files (download_body E url target_path (Some declared) w).2
                  = <[target_path := (c ++ delivered (reads resp))%list]> (files w)).
  { unfold download_body, bind. rewrite (prepare_resume _ _ _ _ c) by done.
    destruct (transfer_clean E target_path
                (Request url [range_header (Z.of_nat (length c))]) AB
                (Z.of_nat (length c)) w c resp) as [Hr Hf]; auto.
    { rewrite Hcl. unfold default, from_option, id.
      destruct (delivered (reads resp)) eqn:Hd; [by right|left].
      subst n. cbn [length]. lia. }
    destruct (transfer E target_path _ AB (Z.of_nat (length c)) w) as [r w1].
    cbn [fst snd] in Hr, Hf. subst r.
    destruct (verify_frame target_path (Some declared) w1) as (tr' & _ & _ & _ & Hfv).
    rewrite Hfv, Hf. split; [|done].
    eapply verify_returns. rewrite Hf. apply lookup_insert_eq. }
  pose proof (download_handler E url target_path (Some declared) w) as Hh.
  destruct (download_body E url target_path (Some declared) w) as [r w1].
  cbn [fst snd] in Hbody, Htr. destruct Hbody as [-> Hf]. rewrite Hh. cbn [fst snd].
  exists tr. repeat split; auto.
  rewrite length_app. subst n. lia.
Qed.

Lemma resume_appends_from_offset_witness :
  ∃ tr,
    (download_file_with_progress (serves sixty_more) "https://h/a.zip"
       "out/v1.0/a.zip" (Some 100) forty_on_disk).1 = Ret tt ∧
    trace (download_file_with_progress (serves sixty_more) "https://h/a.zip"
             "out/v1.0/a.zip" (Some 100) forty_on_disk).2
      = (trace forty_on_disk ++ tr)%list ∧
    requests_of tr =
      [Request "https://h/a.zip"
         [("Range", "bytes=" +:+ Py.str_int (Z.of_nat (length (replicate 40 Byte.x00))) +:+ "-")]] ∧
    opens_of tr = [("out/v1.0/a.zip", AB)] ∧
    files (download_file_with_progress (serves sixty_more) "https://h/a.zip"
             "out/v1.0/a.zip" (Some 100) forty_on_disk).2
      = <["out/v1.0/a.zip" :=
            (replicate 40 Byte.x00 ++ delivered (reads sixty_more))%list]>
          (files forty_on_disk) ∧
    Z.of_nat (length (replicate 40 Byte.x00 ++ delivered (reads sixty_more)))
      = Z.of_nat (length (replicate 40 Byte.x00)) + 60.
Proof.
  apply (resume_appends_from_offset (serves sixty_more) "https://h/a.zip"
           "out/v1.0/a.zip" 100 forty_on_disk (replicate 40 Byte.x00) sixty_more 60).
  - reflexivity.
  - vm_compute. reflexivity.
  - reflexivity.
  - reflexivity.
  - reflexivity.
  - reflexivity.
Defined.

(** The scenario in numbers: the header is [bytes=40-], the file ends with
    a hundred bytes and the verdict is "Done". *)
Example resume_forty_of_hundred :
  let r := download_file_with_progress (serves sixty_more) "https://h/a.zip"
             "out/v1.0/a.zip" (Some 100) forty_on_disk in
  r.1 = Ret tt ∧
  requests_of (trace r.2) = [Request "https://h/a.zip" [("Range", "bytes=40-")]] ∧
  length <$> files r.2 !! "out/v1.0/a.zip" = Some 100%nat ∧
  List.last (messages_of (trace r.2)) MsgNewline = MsgDone "out/v1.0/a.zip".
Proof. vm_compute. auto. Qed.

(** The whole function on a target that is already on disk. *)
Lemma download_existing (E : env) (url target_path : string)
    (expected_size : option Z) (w : world) (c : list Byte.byte) :
  files w !! target_path = Some c →
  ∃ tr k,
    trace (download_file_with_progress E url target_path expected_size w).2
      = (trace w ++ tr)%list ∧
    files (download_file_with_progress E url target_path expected_size w).2
      = <[target_path := (c ++ k)%list]> (files w) ∧
    Forall (λ o, o = (target_path, AB)) (opens_of tr) ∧
    requests_of tr =
      (if Py.truthy_int expected_size && bool_decide (Some (Z.of_nat (length c)) = expected_size)
       then []
       else [Request url [range_header (Z.of_nat (length c))]]) ∧
    (∀ resp,
       Py.truthy_int expected_size && bool_decide (Some (Z.of_nat (length c)) = expected_size)
         = false →
       server E (length (requests_of (trace w)))
              (Request url [range_header (Z.of_nat (length c))]) = Opened resp →
       opens_of tr = [(target_path, AB)]).
Proof.
  intros Hp.
  destruct (download_body_existing E url target_path expected_size w c Hp)
    as (tr & k & Htr & Hf & Hop & Hreq & Hop1).
  pose proof (download_handler E url target_path expected_size w) as Hh.
  destruct (download_body E url target_path expected_size w) as [[[]|e] w1];
    cbn [snd] in Htr, Hf; rewrite Hh.
  - exists tr, k. auto.
  - destruct (is_transport e).
    + exists (tr ++ [EvPrint (MsgDownloadFailed target_path e)])%list, k.
      cbn [snd trace files]. rewrite Htr, Hf, app_assoc.
      rewrite opens_of_app, requests_of_app. cbn. rewrite !app_nil_r.
      repeat split; auto.
    + exists tr, k. auto.
Qed.

(** C10: when the target is already on disk, whatever its size, the engine
    opens it in append mode only, and the file afterwards is the old bytes
    followed by what was appended (no other file changes); when the file is
    larger than the declared size the ranged request from the existing size
    is still the one request issued, and the file is opened for appending
    once the server answers. *)
Theorem existing_target_only_appended (E : env) (url target_path : string)
    (expected_size : option Z) (w : world) (c : list Byte.byte) :
  files w !! target_path = Some c →
  ∃ tr k,
    trace (download_file_with_progress E url target_path expected_size w).2
      = (trace w ++ tr)%list ∧
    files (download_file_with_progress E url target_path expected_size w).2
      = <[target_path := (c ++ k)%list]> (files w) ∧
    Forall (λ o, o = (target_path, AB)) (opens_of tr) ∧
    (∀ declared,
       expected_size = Some declared → declared < Z.of_nat (length c) →
       requests_of tr =
         [Request url [("Range", "bytes=" +:+ Py.str_int (Z.of_nat (length c)) +:+ "-")]] ∧
       ∀ resp,
         server E (length (requests_of (trace w)))
           (Request url [("Range", "bytes=" +:+ Py.str_int (Z.of_nat (length c)) +:+ "-")])
           = Opened resp →
         opens_of tr = [(target_path, AB)]).
Proof.
  intros Hp.
  destruct (download_existing E url target_path expected_size w c Hp)
    as (tr & k & Htr & Hf & Hop & Hreq & Hop1).
  exists tr, k. repeat split; auto.
  - subst expected_size.
    rewrite bool_decide_eq_false_2 in Hreq; [|intros [=]; lia].
    by rewrite andb_false_r in Hreq.
  - intros resp Hsrv. apply (Hop1 resp); [|done].
    subst expected_size. rewrite bool_decide_eq_false_2; [apply andb_false_r|].
    intros [=]. lia.
Qed.

Lemma existing_target_only_appended_witness :
  ∃ tr k,
    trace (download_file_with_progress (serves five_bytes) "https://h/a.zip"
             "out/a.zip" (Some 3) (world_with "out/a.zip" abcde)).2
      = (trace (world_with "out/a.zip" abcde) ++ tr)%list ∧
    files (download_file_with_progress (serves five_bytes) "https://h/a.zip"
             "out/a.zip" (Some 3) (world_with "out/a.zip" abcde)).2
      = <["out/a.zip" := (abcde ++ k)%list]> (files (world_with "out/a.zip" abcde)) ∧
    Forall (λ o, o = ("out/a.zip", AB)) (opens_of tr) ∧
    (∀ declared,
       Some 3 = Some declared → declared < Z.of_nat (length abcde) →
       requests_of tr =
         [Request "https://h/a.zip"
            [("Range", "bytes=" +:+ Py.str_int (Z.of_nat (length abcde)) +:+ "-")]] ∧
       ∀ resp,
         server (serves five_bytes)
           (length (requests_of (trace (world_with "out/a.zip" abcde))))
           (Request "https://h/a.zip"
              [("Range", "bytes=" +:+ Py.str_int (Z.of_nat (length abcde)) +:+ "-")])
           = Opened resp →
         opens_of tr = [("out/a.zip", AB)]).
Proof.
  apply (existing_target_only_appended (serves five_bytes) "https://h/a.zip"
           "out/a.zip" (Some 3) (world_with "out/a.zip" abcde) abcde).
  reflexivity.
Defined.

(** A target of five bytes against a declared size of three: the request
    is [bytes=5-], the five old bytes stay in front, and the verdict is a
    size mismatch. *)
Example oversized_target_is_appended_to :
  let r := download_file_with_progress (serves five_bytes) "https://h/a.zip"
             "out/a.zip" (Some 3) (world_with "out/a.zip" abcde) in
  r.1 = Ret tt ∧
  requests_of (trace r.2) = [Request "https://h/a.zip" [("Range", "bytes=5-")]] ∧
  opens_of (trace r.2) = [("out/a.zip", AB)] ∧
  files r.2 !! "out/a.zip" = Some (abcde ++ abcde)%list ∧
  List.last (messages_of (trace r.2)) MsgNewline = MsgSizeMismatch "out/a.zip".
Proof. vm_compute. auto. Qed.

(** With a declared size that is not zero, a target of exactly that size
    is skipped: no request, no write, one message. *)
Lemma complete_target_skipped (E : env) (url target_path : string)
    (declared : Z) (w : world) (c : list Byte.byte) :
  files w !! target_path = Some c →
  declared ≠ 0 →
  Z.of_nat (length c) = declared →
  download_file_with_progress E url target_path (Some declared) w =
    (Ret tt,
     World (files w) (ticks w) (trace w ++ [EvPrint (MsgAlreadyExists target_path)])).
Proof.
  intros Hp Hd Hlen.
  pose proof (download_handler E url target_path (Some declared) w) as Hh.
  unfold download_body, bind in Hh.
  rewrite (prepare_complete _ _ _ _ c) in Hh; auto.
  - cbn. by apply Z.eqb_neq in Hd as ->.
  - by rewrite Hlen.
Qed.

(** C2, at a declared size of zero: an empty target is on disk and the
    declared size is zero, so the sizes are equal, and yet the engine asks
    the server again, with [Range: bytes=0-], whatever the server is. *)
Theorem empty_target_of_empty_asset_requested (E : env) :
  requests_of
    (trace (download_file_with_progress E "https://h/empty.bin" "out/empty.bin"
              (Some 0) (world_with "out/empty.bin" [])).2)
  = [Request "https://h/empty.bin" [("Range", "bytes=0-")]].
Proof.
  destruct (download_existing E "https://h/empty.bin" "out/empty.bin" (Some 0)
              (world_with "out/empty.bin" []) [])
    as (tr & k & Htr & _ & _ & Hreq & _); [reflexivity|].
  rewrite Htr. cbn [world_with trace app]. exact Hreq.
Qed.

(** The step of the batch loop after a download that returns. *)
Lemma download_assets_step (E : env) (output_dir : string) (a : asset)
    (rest : list asset) (w w' : world) :
  download_file_with_progress E (asset_url a)
    (Py.path_join output_dir (asset_name a)) (Some (asset_size a)) (announced a w)
    = (Ret tt, w') →
  download_assets E output_dir (a :: rest) w = download_assets E output_dir rest w'.
Proof.
  intros Hd. cbn [download_assets]. unfold bind, print, emit.
  fold (announced a w). by rewrite Hd.
Qed.

(** With a declared size that is not zero, a stream that completes is
    followed by the comparison of the sizes: "Done" when they are equal, a
    reported mismatch otherwise, and a normal return in both cases. *)
Lemma completed_stream_checked (E : env) (url target_path : string)
    (declared : Z) (w w1 : world) (req : request) (mode : open_mode)
    (existing_size : Z) (c1 : list Byte.byte) :
  declared ≠ 0 →
  prepare url target_path (Some declared) w = (Ret (Some (req, mode, existing_size)), w) →
  transfer E target_path req mode existing_size w = (Ret tt, w1) →
  files w1 !! target_path = Some c1 →
  download_file_with_progress E url target_path (Some declared) w =
    (Ret tt,
     World (files w1) (ticks w1)
           (trace w1 ++ [EvPrint (if bool_decide (Z.of_nat (length c1) = declared)
                                  then MsgDone target_path
                                  else MsgSizeMismatch target_path)])).
Proof.
  intros Hd Hprep Ht Hc1.
  pose proof (download_handler E url target_path (Some declared) w) as Hh.
  unfold download_body, bind in Hh. rewrite Hprep, Ht in Hh.
  by rewrite (verify_verdict _ _ _ c1) in Hh.
Qed.

(** C3, at a declared size of zero: the stream completes with five bytes
    on disk against a declared size of zero, and the verdict is "Done"; no
    mismatch is reported. *)
Theorem empty_asset_size_never_checked :
  (download_file_with_progress (serves five_bytes) "https://h/a.zip" "out/a.zip"
     (Some 0) empty_world).1 = Ret tt ∧
  length <$> files (download_file_with_progress (serves five_bytes) "https://h/a.zip"
                      "out/a.zip" (Some 0) empty_world).2 !! "out/a.zip" = Some 5%nat ∧
  List.last (messages_of (trace (download_file_with_progress (serves five_bytes)
               "https://h/a.zip" "out/a.zip" (Some 0) empty_world).2)) MsgNewline
    = MsgDone "out/a.zip" ∧
  MsgSizeMismatch "out/a.zip" ∉
    messages_of (trace (download_file_with_progress (serves five_bytes)
                   "https://h/a.zip" "out/a.zip" (Some 0) empty_world).2).
Proof.
  assert (Hm : messages_of (trace (download_file_with_progress (serves five_bytes)
                 "https://h/a.zip" "out/a.zip" (Some 0) empty_world).2)
               = [MsgProgress 5 5 (inject_Z 5 / inject_Z 5 * 100)%Q
                    (speed_of 5 (second_clock 1 - second_clock 0)%Q);
                  MsgNewline; MsgDone "out/a.zip"])
    by (vm_compute; reflexivity).
  rewrite Hm. split; [|split; [|split]]; try (vm_compute; reflexivity).
  rewrite !elem_of_cons, elem_of_nil. intros [?|[?|[?|?]]]; try discriminate; done.
Qed.

(** The same five bytes against a declared size of three are reported. *)
Example truncated_manifest_size_reported :
  List.last (messages_of (trace (download_file_with_progress (serves five_bytes)
               "https://h/a.zip" "out/a.zip" (Some 3) empty_world).2)) MsgNewline
    = MsgSizeMismatch "out/a.zip".
Proof. vm_compute. reflexivity. Qed.

(** C9, on a resumed download: forty bytes are on disk, sixty arrive in
    one chunk and one second has passed since the transfer began. Sixty
    bytes per second moved; the speed reported is a hundred. *)
Theorem resumed_speed_counts_old_bytes :
  ∃ percent_complete download_speed,
    messages_of (trace (download_file_with_progress (serves sixty_more)
                   "https://h/a.zip" "out/v1.0/a.zip" (Some 100) forty_on_disk).2)
      = [MsgProgress 100 100 percent_complete download_speed;
         MsgNewline; MsgDone "out/v1.0/a.zip"] ∧
    (download_speed == inject_Z 100 / 1)%Q ∧
    ¬ (download_speed == inject_Z 60 / 1)%Q.
Proof.
  vm_compute. eexists _, _. split; [reflexivity|]. split; [reflexivity|discriminate].
Qed.

(** On a fresh download the same sixty bytes in one second are reported
    as sixty. *)
Example fresh_speed :
  ∃ percent_complete download_speed,
    messages_of (trace (download_file_with_progress (serves sixty_more)
                   "https://h/a.zip" "out/v1.0/a.zip" (Some 60) empty_world).2)
      = [MsgProgress 60 60 percent_complete download_speed;
         MsgNewline; MsgDone "out/v1.0/a.zip"] ∧
    (download_speed == inject_Z 60 / 1)%Q.
Proof.
  vm_compute. eexists _, _. split; [reflexivity|]. reflexivity.
Qed.

(** No clock reading makes the speed a division by zero. *)
Lemma speed_of_no_elapsed_time (bytes_so_far : Z) (elapsed_time : Q) :
  (elapsed_time <= 0)%Q → speed_of bytes_so_far elapsed_time = 0%Q.
Proof.
  intros Hle. unfold speed_of. apply Qle_bool_iff in Hle. by rewrite Hle.
Qed.

(** ** The batch *)

(** C4, as stated, fails: the first answer carries no Content-Length, the
    first chunk makes the percentage a division by zero, the exception is
    not one the engine catches, and the second asset is never asked for. *)
Lemma batch_aborted_by_unsized_answer :
  (download_assets (serves five_bytes_unsized) "out" two_assets empty_world).1
    = Exc ZeroDivisionError ∧
  requests_of (trace (download_assets (serves five_bytes_unsized) "out"
                        two_assets empty_world).2)
    = [Request "https://h/a.zip" []] ∧
  messages_of (trace (download_assets (serves five_bytes_unsized) "out"
                        two_assets empty_world).2)
    = [MsgDownloading "a.zip" 5].
Proof. vm_compute. auto. Qed.

(** C4, amended: a transport failure (HTTPError or URLError) raised while
    one asset is transferred is caught there and reported, and the batch
    goes on with the next asset from the world the failure left: every file
    that was on disk is still there with its old bytes in front, and what
    the transfer wrote stays. *)
Theorem transport_failure_is_contained (E : env) (output_dir : string)
    (a : asset) (rest : list asset) (w w1 : world) (e : exn) :
  download_body E (asset_url a) (Py.path_join output_dir (asset_name a))
    (Some (asset_size a)) (announced a w) = (Exc e, w1) →
  is_transport e = true →
  extends w w1 ∧
  download_file_with_progress E (asset_url a)
    (Py.path_join output_dir (asset_name a)) (Some (asset_size a)) (announced a w)
    = (Ret tt, reported (Py.path_join output_dir (asset_name a)) e w1) ∧
  download_assets E output_dir (a :: rest) w =
    download_assets E output_dir rest
      (reported (Py.path_join output_dir (asset_name a)) e w1).
Proof.
  intros Hbody He.
  pose proof (download_handler E (asset_url a)
                (Py.path_join output_dir (asset_name a)) (Some (asset_size a))
                (announced a w)) as Hh.
  rewrite Hbody, He in Hh. fold (reported (Py.path_join output_dir (asset_name a)) e w1) in Hh.
  split; [|split; [exact Hh|by apply download_assets_step]].
  pose proof (download_extends E (asset_url a)
                (Py.path_join output_dir (asset_name a)) (Some (asset_size a))
                (announced a w)) as Hext.
  rewrite Hh in Hext. exact Hext.
Qed.

Lemma transport_failure_is_contained_witness :
  extends empty_world
    (World ∅ 0 [EvPrint (MsgDownloading "a.zip" 5);
                EvRequest (Request "https://h/a.zip" [])]) ∧
  download_file_with_progress refuses_first
    (asset_url (Asset "a.zip" 5 "https://h/a.zip"))
    (Py.path_join "out" (asset_name (Asset "a.zip" 5 "https://h/a.zip")))
    (Some (asset_size (Asset "a.zip" 5 "https://h/a.zip")))
    (announced (Asset "a.zip" 5 "https://h/a.zip") empty_world)
    = (Ret tt,
       reported (Py.path_join "out" (asset_name (Asset "a.zip" 5 "https://h/a.zip")))
         (HTTPError 404)
         (World ∅ 0 [EvPrint (MsgDownloading "a.zip" 5);
                     EvRequest (Request "https://h/a.zip" [])])) ∧
  download_assets refuses_first "out"
    (Asset "a.zip" 5 "https://h/a.zip" :: [Asset "b.zip" 5 "https://h/b.zip"]) empty_world =
    download_assets refuses_first "out" [Asset "b.zip" 5 "https://h/b.zip"]
      (reported (Py.path_join "out" (asset_name (Asset "a.zip" 5 "https://h/a.zip")))
         (HTTPError 404)
         (World ∅ 0 [EvPrint (MsgDownloading "a.zip" 5);
                     EvRequest (Request "https://h/a.zip" [])])).
Proof.
  apply (transport_failure_is_contained refuses_first "out"
           (Asset "a.zip" 5 "https://h/a.zip") [Asset "b.zip" 5 "https://h/b.zip"]
           empty_world
           (World ∅ 0 [EvPrint (MsgDownloading "a.zip" 5);
                       EvRequest (Request "https://h/a.zip" [])])
           (HTTPError 404)).
  - reflexivity.
  - reflexivity.
Defined.

(** The batch after the refused first asset: the failure is reported and
    the second asset is downloaded and checked. *)
Example batch_continues_after_404 :
  (download_assets refuses_first "out" two_assets empty_world).1 = Ret tt ∧
  messages_of (trace (download_assets refuses_first "out" two_assets empty_world).2)
    = [MsgDownloading "a.zip" 5;
       MsgDownloadFailed "out/a.zip" (HTTPError 404);
       MsgDownloading "b.zip" 5;
       MsgProgress 5 5 (inject_Z 5 / inject_Z 5 * 100)%Q
         (speed_of 5 (second_clock 1 - second_clock 0)%Q);
       MsgNewline;
       MsgDone "out/b.zip"] ∧
  files (download_assets refuses_first "out" two_assets empty_world).2 !! "out/b.zip"
    = Some abcde.
Proof. vm_compute. auto. Qed.

(** ** Strings *)

Lemma str_app_cons (c : Ascii.ascii) (s t : string) :
  String c s +:+ t = String c (s +:+ t).
Proof. reflexivity. Qed.

Lemma str_app_nil_l (t : string) : "" +:+ t = t.
Proof. reflexivity. Qed.

Lemma str_app_nil_r (s : string) : s +:+ "" = s.
Proof. induction s as [|c s IH]; [done|]. by rewrite str_app_cons, IH. Qed.

Lemma str_app_assoc (a b c : string) : (a +:+ b) +:+ c = a +:+ (b +:+ c).
Proof. induction a as [|x a IH]; [done|]. by rewrite !str_app_cons, IH. Qed.

Lemma prefix_app (p s : string) : String.prefix p (p +:+ s) = true.
Proof.
  induction p as [|c p IH].
  - by destruct s.
  - rewrite str_app_cons. cbn. by destruct (Ascii.ascii_dec c c).
Qed.

Lemma prefix_inv (p : string) : ∀ s, String.prefix p s = true → ∃ r, s = p +:+ r.
Proof.
  induction p as [|c p IH]; intros s Hs.
  - by exists s.
  - destruct s as [|d s]; [done|]. cbn in Hs.
    destruct (Ascii.ascii_dec c d) as [->|]; [|done].
    destruct (IH s Hs) as [r ->]. by exists r.
Qed.

Lemma slice_from_app (p s : string) : Py.slice_from (String.length p) (p +:+ s) = s.
Proof. induction p as [|c p IH]; [by destruct s|]. rewrite str_app_cons. exact IH. Qed.

Lemma contains_cons (sub : string) (c : Ascii.ascii) (s : string) :
  Py.contains sub (String c s) = String.prefix sub (String c s) || Py.contains sub s.
Proof. reflexivity. Qed.

Lemma contains_app (sub a b : string) : Py.contains sub (a +:+ sub +:+ b) = true.
Proof.
  induction a as [|c a IH].
  - rewrite str_app_nil_l. destruct (sub +:+ b) eqn:Hs.
    + destruct sub; [done|discriminate].
    + rewrite contains_cons, <- Hs, prefix_app. done.
  - rewrite str_app_cons, contains_cons, IH. apply orb_true_r.
Qed.

(** *** [split] *)

Lemma split_go_nonempty (sep s : string) :
  ∀ skip cur, Py.split_go sep skip cur s ≠ [].
Proof.
  induction s as [|c s IH]; intros skip cur; [done|].
  cbn [Py.split_go]. destruct skip; [|apply IH].
  destruct (String.prefix sep (String c s)); [done|apply IH].
Qed.

Lemma last_item_cons (x : string) (l : list string) :
  l ≠ [] → Py.last_item (x :: l) = Py.last_item l.
Proof. by destruct l. Qed.

(** The characters of a separator just found are passed over. *)
Lemma split_go_skip (sep x : string) :
  ∀ cur t, Py.split_go sep (String.length x) cur (x +:+ t) = Py.split_go sep 0 cur t.
Proof.
  induction x as [|c x IH]; intros cur t; [done|].
  rewrite str_app_cons. cbn [String.length Py.split_go]. apply IH.
Qed.

(** A text without the separator is one piece. *)
Lemma split_go_no_match (sep t : string) :
  ∀ cur, Py.contains sep t = false → Py.split_go sep 0 cur t = [cur +:+ t].
Proof.
  induction t as [|c t IH]; intros cur Hc.
  - by rewrite str_app_nil_r.
  - rewrite contains_cons in Hc. apply orb_false_iff in Hc as [Hp Hc].
    cbn [Py.split_go]. rewrite Hp, IH by done.
    by rewrite str_app_assoc.
Qed.

(** The marker [releases/tag/] does not overlap itself: an occurrence that
    starts before another one ends before it. *)
Lemma marker_border (c : Ascii.ascii) (a t : string) :
  String.prefix tag_marker (String c a +:+ tag_marker +:+ t) = true →
  (12 ≤ String.length a)%nat.
Proof.
  intros Hp. apply prefix_inv in Hp as [r Hr].
  do 12 (destruct a as [|? a]; [exfalso; vm_compute in Hr; simplify_eq|]).
  cbn. lia.
Qed.

(** A step of [split] at a separator. *)
Lemma split_go_match (sep cur : string) (c : Ascii.ascii) (s : string) :
  String.prefix sep (String c s) = true →
  Py.split_go sep 0 cur (String c s)
    = cur :: Py.split_go sep (String.length sep - 1) "" s.
Proof. intros Hp. cbn [Py.split_go]. by rewrite Hp. Qed.

Lemma split_go_at_marker (cur t : string) :
  Py.split_go tag_marker 0 cur (tag_marker +:+ t)
    = cur :: Py.split_go tag_marker 0 "" t.
Proof.
  pose proof (prefix_app tag_marker t) as Hp.
  unfold tag_marker in *. rewrite str_app_cons in *.
  rewrite split_go_match by done.
  apply (f_equal (cons cur)). exact (split_go_skip _ "eleases/tag/" "" t).
Qed.

(** The last piece of a split at the marker is what follows its last
    occurrence. *)
Lemma split_last_marker (t : string) :
  Py.contains tag_marker t = false →
  ∀ a skip cur,
    (skip ≤ String.length a)%nat →
    Py.last_item (Py.split_go tag_marker skip cur (a +:+ tag_marker +:+ t)) = t.
Proof.
  intros Ht. induction a as [|c a IH]; intros skip cur Hskip.
  - assert (skip = 0%nat) as -> by (cbn in Hskip; lia).
    rewrite str_app_nil_l, split_go_at_marker, split_go_no_match by done.
    reflexivity.
  - rewrite str_app_cons. cbn [Py.split_go]. destruct skip as [|k].
    + destruct (String.prefix tag_marker (String c (a +:+ tag_marker +:+ t))) eqn:Hp.
      * rewrite last_item_cons by apply split_go_nonempty.
        apply IH. rewrite <- str_app_cons in Hp. apply marker_border in Hp. cbn. exact Hp.
      * apply IH. lia.
    + apply IH. cbn in Hskip. lia.
Qed.

(** *** Splitting at ["/"] *)

Lemma prefix_nil (s : string) : String.prefix "" s = true.
Proof. by destruct s. Qed.

Lemma prefix_slash (c : ascii) (s : string) :
  String.prefix "/" (String c s) = bool_decide (c = "/"%char).
Proof.
  cbn [String.prefix]. destruct (ascii_dec "/" c) as [Heq|Hne].
  - by rewrite prefix_nil, bool_decide_eq_true_2.
  - by rewrite bool_decide_eq_false_2.
Qed.

Lemma contains_slash_app (a b : string) :
  Py.contains "/" (a +:+ b) = Py.contains "/" a || Py.contains "/" b.
Proof.
  induction a as [|c a IH]; [done|].
  rewrite str_app_cons, !contains_cons, IH, !prefix_slash. apply orb_assoc.
Qed.

Lemma join_cons (sep x : string) (l : list string) :
  l ≠ [] → join sep (x :: l) = x +:+ sep +:+ join sep l.
Proof. by destruct l. Qed.

(** Joining the pieces with ["/"] gives the text back. *)
Lemma split_slash_join (s : string) :
  ∀ cur, join "/" (Py.split_go "/" 0 cur s) = cur +:+ s.
Proof.
  induction s as [|c s IH]; intros cur.
  - cbn. by rewrite str_app_nil_r.
  - cbn [Py.split_go]. rewrite prefix_slash. case_bool_decide as Hc.
    + subst c. rewrite join_cons by apply split_go_nonempty.
      change (String.length "/" - 1)%nat with 0%nat. by rewrite IH.
    + by rewrite IH, str_app_assoc.
Qed.

(** No piece holds a ["/"]. *)
Lemma split_slash_pieces (s : string) :
  ∀ cur, Py.contains "/" cur = false →
         Forall (λ x, Py.contains "/" x = false) (Py.split_go "/" 0 cur s).
Proof.
  induction s as [|c s IH]; intros cur Hcur.
  - by constructor.
  - cbn [Py.split_go]. rewrite prefix_slash. case_bool_decide as Hc.
    + constructor; [done|]. by apply IH.
    + apply IH. rewrite contains_slash_app, Hcur, contains_cons, prefix_slash.
      by rewrite bool_decide_eq_false_2.
Qed.

(** A text with a ["/"] has at least two pieces. *)
Lemma split_slash_two (a b : string) :
  ∀ cur, (2 ≤ length (Py.split_go "/" 0 cur (a +:+ "/" +:+ b)))%nat.
Proof.
  induction a as [|c a IH]; intros cur.
  - change ("" +:+ "/" +:+ b) with (String "/" b).
    rewrite split_go_match by (by rewrite prefix_slash).
    pose proof (split_go_nonempty "/" b (String.length "/" - 1) "") as Hne.
    destruct (Py.split_go "/" (String.length "/" - 1) "" b); [done|cbn; lia].
  - rewrite str_app_cons. cbn [Py.split_go]. rewrite prefix_slash.
    case_bool_decide as Hc; [|apply IH].
    pose proof (split_go_nonempty "/" (a +:+ "/" +:+ b) (String.length "/" - 1) "") as Hne.
    destruct (Py.split_go "/" (String.length "/" - 1) "" (a +:+ "/" +:+ b)); [done|cbn; lia].
Qed.

(** When the text has two pieces or more, it starts with the first two,
    a ["/"] between them, and what follows is empty or starts with ["/"]. *)
Lemma first_two_segments (r : string) :
  (length (Py.split r "/") <? 2)%nat = false →
  ∃ rest,
    r = nth 0 (Py.split r "/") "" +:+ "/" +:+ nth 1 (Py.split r "/") "" +:+ rest ∧
    Py.contains "/" (nth 0 (Py.split r "/") "") = false ∧
    Py.contains "/" (nth 1 (Py.split r "/") "") = false ∧
    (rest = "" ∨ ∃ rest', rest = "/" +:+ rest').
Proof.
  intros Hlen. unfold Py.split in *.
  pose proof (split_slash_join r "") as Hjoin.
  pose proof (split_slash_pieces r "" eq_refl) as Hpieces.
  destruct (Py.split_go "/" 0 "" r) as [|o [|p l]]; [done..|].
  apply Forall_cons in Hpieces as [Ho Hpieces].
  apply Forall_cons in Hpieces as [Hp _].
  rewrite str_app_nil_l in Hjoin. cbn [nth].
  destruct l as [|q l].
  - exists "". rewrite str_app_nil_r. cbn in Hjoin. auto.
  - exists ("/" +:+ join "/" (q :: l)). rewrite <- Hjoin.
    rewrite !join_cons by done. repeat split; eauto.
Qed.

(** ** Reference resolution *)

Lemma startswith_inv (s p : string) :
  Py.startswith s p = true → s = p +:+ Py.slice_from (String.length p) s.
Proof.
  intros Hp. apply prefix_inv in Hp as [r ->]. by rewrite slice_from_app.
Qed.

(** C8, as stated, fails: a reference that ends right after the owner's
    ["/"] is accepted with an empty repo, and one with nothing but ["/"]
    after the prefix with an empty owner too. *)
Lemma empty_repo_accepted :
  resolve "https://github.com/acme/" None = inr ("acme", "", None) ∧
  resolve "https://api.github.com/repos//" None = inr ("", "", None).
Proof. split; reflexivity. Qed.

(** C8, amended: for every reference that resolution accepts, the text
    after the recognised prefix holds a ["/"], and owner and repo are its
    first two segments: the reference is the prefix, the owner, a ["/"], the
    repo and a rest that is empty or starts with ["/"], and neither owner
    nor repo holds a ["/"]. (Either may be empty.) *)
Theorem accepted_reference_segments (repo_url : string)
    (release_tag : option string) (owner repo : string) (tag : option string) :
  resolve repo_url release_tag = inr (owner, repo, tag) →
  ∃ pre rest,
    (pre = "https://api.github.com/repos/" ∨ pre = "https://github.com/") ∧
    repo_url = pre +:+ owner +:+ "/" +:+ repo +:+ rest ∧
    Py.contains "/" owner = false ∧
    Py.contains "/" repo = false ∧
    (rest = "" ∨ ∃ rest', rest = "/" +:+ rest').
Proof.
  unfold resolve. intros Hres.
  destruct (Py.startswith repo_url api_prefix) eqn:Hapi.
  - apply startswith_inv in Hapi.
    destruct (length _ <? 2)%nat eqn:Hlen; [done|].
    destruct (first_two_segments _ Hlen) as (rest & Hr & Ho & Hp & Hrest).
    injection Hres as <- <- <-.
    exists api_prefix, rest. repeat split; auto.
    rewrite Hapi at 1. by rewrite Hr at 1.
  - destruct (Py.startswith repo_url web_prefix) eqn:Hweb; [|done].
    apply startswith_inv in Hweb.
    destruct (length _ <? 2)%nat eqn:Hlen; [done|].
    destruct (first_two_segments _ Hlen) as (rest & Hr & Ho & Hp & Hrest).
    assert (owner = nth 0 (Py.split (Py.slice_from (String.length web_prefix) repo_url) "/") "" ∧
            repo = nth 1 (Py.split (Py.slice_from (String.length web_prefix) repo_url) "/") "")
      as [-> ->].
    { repeat case_match; simplify_eq; done. }
    exists web_prefix, rest. repeat split; auto.
    rewrite Hweb at 1. by rewrite Hr at 1.
Qed.

Lemma accepted_reference_segments_witness :
  ∃ pre rest,
    (pre = "https://api.github.com/repos/" ∨ pre = "https://github.com/") ∧
    "https://github.com/acme/tool/releases/tag/v2.0"
      = pre +:+ "acme" +:+ "/" +:+ "tool" +:+ rest ∧
    Py.contains "/" "acme" = false ∧
    Py.contains "/" "tool" = false ∧
    (rest = "" ∨ ∃ rest', rest = "/" +:+ rest').
Proof.
  apply (accepted_reference_segments
           "https://github.com/acme/tool/releases/tag/v2.0" None "acme" "tool" (Some "v2.0")).
  reflexivity.
Defined.

(** A rejected reference: the message, the exit, and nothing else. *)
Lemma fetch_rejected (E : env) (repo_url : string) (release_tag : option string)
    (msg : message) (w : world) :
  resolve repo_url release_tag = inl msg →
  fetch_release_data E repo_url release_tag w =
    (Exc (SystemExit 1), World (files w) (ticks w) (trace w ++ [EvPrint msg])).
Proof. intros Hres. unfold fetch_release_data. by rewrite Hres. Qed.

Lemma read_all_pure (rs : list read_result) (w : world) : (read_all rs w).2 = w.
Proof.
  induction rs as [|[[|b data]|e] rs IH]; try done.
  cbn [read_all]. unfold bind. by destruct (read_all rs w) as [[?|?] ?]; cbn in *.
Qed.

(** An accepted reference: exactly one request, to the endpoint built from
    what resolution returned. *)
Lemma fetch_requests (E : env) (repo_url : string) (release_tag : option string)
    (owner repo : string) (tag : option string) (w : world) :
  resolve repo_url release_tag = inr (owner, repo, tag) →
  requests_of (trace (fetch_release_data E repo_url release_tag w).2)
    = (requests_of (trace w) ++ [Request (api_url_of owner repo tag) []])%list.
Proof.
  intros Hres. unfold fetch_release_data. rewrite Hres.
  unfold try_except, bind, urlopen.
  destruct (server E _ _) as [resp|e].
  - match goal with
    | |- context [read_all ?rs ?w1] =>
        pose proof (read_all_pure rs w1) as Hpure;
        destruct (read_all rs w1) as [[body|e] w2]; cbn [snd] in Hpure; subst w2
    end.
    + destruct (json_loads E body); cbn; by rewrite requests_of_app.
    + destruct (is_transport e); cbn; rewrite !requests_of_app; cbn;
        by rewrite ?app_nil_r.
  - destruct (is_transport e); cbn; rewrite !requests_of_app; cbn;
      by rewrite ?app_nil_r.
Qed.

(** The tag a web reference embeds is what follows the last
    [releases/tag/]. *)
Lemma embedded_tag_extracted (path tag : string) :
  Py.contains tag_marker tag = false →
  Py.strip tag "/" = tag →
  Py.strip (Py.last_item
              (Py.split (web_prefix +:+ path +:+ tag_marker +:+ tag) tag_marker)) "/"
    = tag.
Proof.
  intros Hc Hs. unfold Py.split.
  rewrite <- (str_app_assoc web_prefix path).
  rewrite split_last_marker; [done..|lia].
Qed.

Lemma resolve_web_with_tag (path tag : string) (release_tag : option string) :
  Py.contains tag_marker tag = false →
  Py.strip tag "/" = tag →
  ∃ owner repo,
    resolve (web_prefix +:+ path +:+ tag_marker +:+ tag) release_tag =
      match release_tag with
      | Some (String _ _ as requested) =>
          if String.eqb requested tag
          then inr (owner, repo, Some tag)
          else inl (MsgConflictingTags tag requested)
      | _ => inr (owner, repo, Some tag)
      end.
Proof.
  intros Hc Hs. eexists _, _. unfold resolve.
  change (Py.startswith (web_prefix +:+ path +:+ tag_marker +:+ tag) api_prefix)
    with false.
  unfold Py.startswith. rewrite prefix_app, slice_from_app.
  assert (Hlen : (length (Py.split (path +:+ tag_marker +:+ tag) "/") <? 2)%nat = false).
  { apply Nat.ltb_ge. unfold Py.split.
    replace (path +:+ tag_marker +:+ tag)
      with ((path +:+ "releases") +:+ "/" +:+ ("tag/" +:+ tag))
      by (by rewrite str_app_assoc).
    apply split_slash_two. }
  rewrite Hlen.
  replace (web_prefix +:+ path +:+ tag_marker +:+ tag)
    with ((web_prefix +:+ path) +:+ tag_marker +:+ tag) at 1
    by apply str_app_assoc.
  rewrite contains_app, embedded_tag_extracted by done.
  reflexivity.
Qed.

(** C5: a web reference that embeds a release tag ([releases/tag/<tag>]
    after any path; the tag with no ["/"] at either end and no
    [releases/tag/] inside), given together with a requested tag that is
    not the embedded one, is rejected with the conflicting-tag message and
    exit code 1; the trace gains that message only, so no request is
    made. *)
Theorem conflicting_tag_rejected (E : env) (path tag requested : string) (w : world) :
  requested ≠ "" →
  requested ≠ tag →
  Py.contains "releases/tag/" tag = false →
  Py.strip tag "/" = tag →
  fetch_release_data E ("https://github.com/" +:+ path +:+ "releases/tag/" +:+ tag)
    (Some requested) w
    = (Exc (SystemExit 1),
       World (files w) (ticks w)
             (trace w ++ [EvPrint (MsgConflictingTags tag requested)])) ∧
  requests_of
    (trace (fetch_release_data E
              ("https://github.com/" +:+ path +:+ "releases/tag/" +:+ tag)
              (Some requested) w).2)
    = requests_of (trace w).
Proof.
  intros Hne Hdiff Hc Hs.
  destruct (resolve_web_with_tag path tag (Some requested) Hc Hs) as (owner & repo & Hres).
  destruct requested as [|c requested]; [done|].
  apply String.eqb_neq in Hdiff. rewrite Hdiff in Hres.
  unfold web_prefix, tag_marker in Hres.
  rewrite (fetch_rejected E _ _ _ w Hres). split; [done|].
  cbn. rewrite requests_of_app. cbn. by rewrite app_nil_r.
Qed.

Lemma conflicting_tag_rejected_witness :
  fetch_release_data (serves five_bytes)
    ("https://github.com/" +:+ "acme/tool/" +:+ "releases/tag/" +:+ "v2.0")
    (Some "v1.0") empty_world
    = (Exc (SystemExit 1),
       World (files empty_world) (ticks empty_world)
             (trace empty_world ++ [EvPrint (MsgConflictingTags "v2.0" "v1.0")])) ∧
  requests_of
    (trace (fetch_release_data (serves five_bytes)
              ("https://github.com/" +:+ "acme/tool/" +:+ "releases/tag/" +:+ "v2.0")
              (Some "v1.0") empty_world).2)
    = requests_of (trace empty_world).
Proof.
  apply (conflicting_tag_rejected (serves five_bytes) "acme/tool/" "v2.0" "v1.0"
           empty_world).
  - discriminate.
  - discriminate.
  - reflexivity.
  - reflexivity.
Defined.

(** An empty requested tag counts as none (line 117 tests its truth
    value): the embedded tag is taken and nothing is rejected. *)
Example empty_requested_tag_is_none :
  resolve "https://github.com/acme/tool/releases/tag/v2.0" (Some "")
    = inr ("acme", "tool", Some "v2.0").
Proof. reflexivity. Qed.

(** Without a requested tag the embedded one is the one asked for. *)
Example web_reference_tag_used (E : env) :
  requests_of
    (trace (fetch_release_data E "https://github.com/acme/tool/releases/tag/v2.0"
              None empty_world).2)
  = [Request "https://api.github.com/repos/acme/tool/releases/tags/v2.0" []].
Proof. by rewrite (fetch_requests E _ _ "acme" "tool" (Some "v2.0")). Qed.

(** C6, on an API reference: the tag in
    [https://api.github.com/repos/acme/tool/releases/tags/v2.0] is not
    read; resolution returns no tag and the request goes to the latest
    release, whatever the server is. *)
Theorem api_reference_tag_ignored (E : env) :
  resolve "https://api.github.com/repos/acme/tool/releases/tags/v2.0" None
    = inr ("acme", "tool", None) ∧
  requests_of
    (trace (fetch_release_data E
              "https://api.github.com/repos/acme/tool/releases/tags/v2.0"
              None empty_world).2)
  = [Request "https://api.github.com/repos/acme/tool/releases/latest" []].
Proof.
  split; [reflexivity|].
  by rewrite (fetch_requests E _ _ "acme" "tool" None).
Qed.

(** On every API reference the tag returned is the requested one. *)
Lemma api_reference_keeps_requested_tag (rest : string) (release_tag : option string)
    (owner repo : string) (tag : option string) :
  resolve ("https://api.github.com/repos/" +:+ rest) release_tag = inr (owner, repo, tag) →
  tag = release_tag.
Proof.
  unfold resolve, Py.startswith. change api_prefix with "https://api.github.com/repos/".
  rewrite prefix_app. destruct (length _ <? 2)%nat; [done|]. by intros [= _ _ ->].
Qed.

(** ** The whole run *)

(** The listing scenario: two assets in the manifest, [--exclude b.zip],
    no download: one request, and one line for [a.zip]. *)
Example listing_with_exclude :
  main api_server (Args "https://github.com/acme/tool" (Some "v1.0") false "."
                     None (Some ["b.zip"])) empty_world
  = (Ret tt,
     World ∅ 0
       [EvRequest (Request "https://api.github.com/repos/acme/tool/releases/tags/v1.0" []);
        EvPrint (MsgRelease "v1.0"); EvPrint MsgFiles;
        EvPrint (MsgListing "a.zip" 100)]).
Proof. reflexivity. Qed.

(** Both lists given: the run ends before anything is listed. *)
Example include_and_exclude_conflict :
  (main api_server (Args "https://github.com/acme/tool" None true "."
                      (Some ["a.zip"]) (Some ["b.zip"])) empty_world).1
    = Exc (SystemExit 1) ∧
  messages_of (trace (main api_server (Args "https://github.com/acme/tool" None true "."
                        (Some ["a.zip"]) (Some ["b.zip"])) empty_world).2)
    = [MsgFilterConflict].
Proof. split; reflexivity. Qed.

(** * Further properties *)

(** ** filter_assets *)

(** X1: with a non-empty exclude list (and no include list), selection
    returns, without error or effect, an order-preserving subsequence of
    the assets holding exactly those whose name is not excluded. *)
Theorem filter_assets_exclude (assets : list asset) (include : option (list string))
    (exclude : list string) (w : world) :
  exclude ≠ [] →
  Py.truthy_list include = false →
  ∃ selected,
    filter_assets assets include (Some exclude) w = (Ret selected, w) ∧
    selected `sublist_of` assets ∧
    (∀ a, a ∈ selected ↔ a ∈ assets ∧ asset_name a ∉ exclude) ∧
    (∀ l, l `sublist_of` assets →
          Forall (λ a, asset_name a ∉ exclude) l → l `sublist_of` selected).
Proof.
  intros Hne Hin.
  exists (filter (λ a, asset_name a ∉ exclude) assets).
  split; [|split; [|split]].
  - unfold filter_assets. rewrite Hin.
    destruct exclude as [|x exclude]; [done|]. reflexivity.
  - apply sublist_filter.
  - intros a. rewrite list_elem_of_filter. tauto.
  - intros l Hl HP. by apply sublist_filter_max.
Qed.

Lemma filter_assets_exclude_witness :
  ∃ selected,
    filter_assets
      [Asset "a.zip" 100 "https://h/a.zip"; Asset "b.zip" 200 "https://h/b.zip"]
      None (Some ["b.zip"]) empty_world
    = (Ret selected, empty_world) ∧
    selected `sublist_of`
      [Asset "a.zip" 100 "https://h/a.zip"; Asset "b.zip" 200 "https://h/b.zip"] ∧
    (∀ a, a ∈ selected ↔
          a ∈ [Asset "a.zip" 100 "https://h/a.zip"; Asset "b.zip" 200 "https://h/b.zip"] ∧
          asset_name a ∉ ["b.zip"]) ∧
    (∀ l, l `sublist_of`
            [Asset "a.zip" 100 "https://h/a.zip"; Asset "b.zip" 200 "https://h/b.zip"] →
          Forall (λ a, asset_name a ∉ ["b.zip"]) l → l `sublist_of` selected).
Proof.
  apply (filter_assets_exclude _ None ["b.zip"] empty_world).
  - discriminate.
  - reflexivity.
Defined.

(** X2: selection fails exactly when both lists are non-empty, and then
    with exit code 1 after the one message; in every other case it returns
    and leaves the world as it is. Neither list is ever silently
    preferred. *)
Theorem filter_assets_fails_iff_both (assets : list asset)
    (include exclude : option (list string)) (w : world) :
  (Py.truthy_list include && Py.truthy_list exclude = true →
   filter_assets assets include exclude w
     = (Exc (SystemExit 1),
        World (files w) (ticks w) (trace w ++ [EvPrint MsgFilterConflict]))) ∧
  (Py.truthy_list include && Py.truthy_list exclude = false →
   ∃ selected, filter_assets assets include exclude w = (Ret selected, w) ∧
               selected `sublist_of` assets) ∧
  (Py.truthy_list include = false → Py.truthy_list exclude = false →
   filter_assets assets include exclude w = (Ret assets, w)).
Proof.
  unfold filter_assets. split; [|split].
  - intros ->. reflexivity.
  - intros ->. destruct (Py.truthy_list include); [|destruct (Py.truthy_list exclude)];
      eexists; split; try reflexivity; apply sublist_filter || reflexivity.
  - intros -> ->. reflexivity.
Qed.

(** X3: the same names given once as include list and once as exclude
    list split the assets in two: the two selections together are a
    rearrangement of the input, and no asset is in both. *)
Theorem include_exclude_partition (assets : list asset) (names : list string)
    (w : world) :
  names ≠ [] →
  ∃ kept dropped,
    filter_assets assets (Some names) None w = (Ret kept, w) ∧
    filter_assets assets None (Some names) w = (Ret dropped, w) ∧
    (kept ++ dropped)%list ≡ₚ assets ∧
    (∀ a, a ∈ kept → a ∉ dropped).
Proof.
  intros Hne. destruct names as [|n names]; [done|].
  eexists _, _. split; [reflexivity|]. split; [reflexivity|]. split.
  - apply filter_app_complement.
  - intros a. rewrite !list_elem_of_filter. tauto.
Qed.

Lemma include_exclude_partition_witness :
  ∃ kept dropped,
    filter_assets two_assets (Some ["b.zip"]) None empty_world = (Ret kept, empty_world) ∧
    filter_assets two_assets None (Some ["b.zip"]) empty_world = (Ret dropped, empty_world) ∧
    (kept ++ dropped)%list ≡ₚ two_assets ∧
    (∀ a, a ∈ kept → a ∉ dropped).
Proof.
  apply (include_exclude_partition two_assets ["b.zip"] empty_world). discriminate.
Defined.

(** ** fetch_release_data: resolution *)

Lemma contains_slash_inv (s : string) :
  Py.contains "/" s = true → ∃ a b, s = a +:+ "/" +:+ b.
Proof.
  induction s as [|c s IH]; [done|].
  rewrite contains_cons, prefix_slash. intros [Hc|Hs]%orb_true_iff.
  - apply bool_decide_eq_true in Hc as ->. by exists "", s.
  - destruct (IH Hs) as (a & b & ->). by exists (String c a), b.
Qed.

(** The first piece of a split at ["/"] is what stands before the first
    ["/"]. *)
Lemma split_slash_first (o rest : string) :
  Py.contains "/" o = false →
  ∀ cur, Py.split_go "/" 0 cur (o +:+ "/" +:+ rest)
         = (cur +:+ o) :: Py.split_go "/" 0 "" rest.
Proof.
  induction o as [|c o IH]; intros Ho cur.
  - rewrite str_app_nil_l, str_app_nil_r.
    change ("/" +:+ rest) with (String "/" rest).
    by rewrite split_go_match by (by rewrite prefix_slash).
  - rewrite contains_cons, prefix_slash in Ho.
    apply orb_false_iff in Ho as [Hc Ho].
    rewrite str_app_cons. cbn [Py.split_go]. rewrite prefix_slash, Hc.
    rewrite IH by done. by rewrite str_app_assoc.
Qed.

(** The pieces of [owner/repo] followed by nothing or by ["/..."]. *)
Lemma split_owner_repo (owner repo rest : string) :
  Py.contains "/" owner = false →
  Py.contains "/" repo = false →
  rest = "" ∨ (∃ rest', rest = "/" +:+ rest') →
  ∃ l, Py.split (owner +:+ "/" +:+ repo +:+ rest) "/" = owner :: repo :: l.
Proof.
  intros Ho Hr Hrest. unfold Py.split.
  rewrite split_slash_first by done. rewrite str_app_nil_l.
  destruct Hrest as [->|[rest' ->]].
  - rewrite str_app_nil_r, split_go_no_match by done. by exists [].
  - rewrite split_slash_first by done. rewrite str_app_nil_l. eauto.
Qed.

Lemma resolve_api_segments (rest owner repo : string) (l : list string)
    (release_tag : option string) :
  Py.split rest "/" = owner :: repo :: l →
  resolve (api_prefix +:+ rest) release_tag = inr (owner, repo, release_tag).
Proof.
  intros Hs. unfold resolve, Py.startswith.
  rewrite prefix_app, slice_from_app, Hs. reflexivity.
Qed.

Lemma resolve_web_segments (rest owner repo : string) (l : list string)
    (release_tag : option string) :
  Py.split rest "/" = owner :: repo :: l →
  resolve (web_prefix +:+ rest) release_tag =
    if Py.contains tag_marker (web_prefix +:+ rest) then
      let url_release_tag :=
        Py.strip (Py.last_item (Py.split (web_prefix +:+ rest) tag_marker)) "/" in
      match release_tag with
      | Some (String _ _ as requested) =>
          if String.eqb requested url_release_tag
          then inr (owner, repo, Some url_release_tag)
          else inl (MsgConflictingTags url_release_tag requested)
      | _ => inr (owner, repo, Some url_release_tag)
      end
    else inr (owner, repo, release_tag).
Proof.
  intros Hs. unfold resolve.
  change (Py.startswith (web_prefix +:+ rest) api_prefix) with false.
  unfold Py.startswith. rewrite prefix_app, slice_from_app, Hs. reflexivity.
Qed.

(** X4: a reference is rejected as malformed exactly when nothing after
    the recognised prefix holds a ["/"], that is, when there are fewer than
    two segments; this holds for the API prefix and for the web prefix. *)
Theorem malformed_iff_no_slash (rest : string) (release_tag : option string) :
  (resolve ("https://api.github.com/repos/" +:+ rest) release_tag = inl MsgInvalidApiUrl
   ↔ Py.contains "/" rest = false) ∧
  (resolve ("https://github.com/" +:+ rest) release_tag = inl MsgInvalidRepoUrl
   ↔ Py.contains "/" rest = false).
Proof.
  assert (Hlen : (length (Py.split rest "/") <? 2)%nat = true ↔ Py.contains "/" rest = false).
  { split.
    - intros Hlt. destruct (Py.contains "/" rest) eqn:Hc; [|done].
      apply contains_slash_inv in Hc as (a & b & ->).
      pose proof (split_slash_two a b "") as Hge. apply Nat.ltb_lt in Hlt.
      unfold Py.split in Hlt. lia.
    - intros Hc. unfold Py.split. by rewrite split_go_no_match. }
  split.
  - rewrite <- Hlen. unfold resolve, Py.startswith.
    change api_prefix with "https://api.github.com/repos/".
    rewrite prefix_app, slice_from_app.
    destruct (length (Py.split rest "/") <? 2)%nat; split; done.
  - rewrite <- Hlen. unfold resolve.
    change (Py.startswith ("https://github.com/" +:+ rest) api_prefix) with false.
    unfold Py.startswith. change web_prefix with "https://github.com/".
    rewrite prefix_app, slice_from_app.
    destruct (length (Py.split rest "/") <? 2)%nat; [done|].
    split; [|done]. repeat case_match; done.
Qed.

(** X5: from an API reference [.../repos/<owner>/<repo>] followed by
    nothing or by ["/..."], resolution takes exactly that owner and that
    repo, keeps the requested tag, and the one request goes to the endpoint
    built from them. *)
Theorem api_reference_resolved (E : env) (owner repo rest : string)
    (release_tag : option string) (w : world) :
  Py.contains "/" owner = false →
  Py.contains "/" repo = false →
  rest = "" ∨ (∃ rest', rest = "/" +:+ rest') →
  resolve ("https://api.github.com/repos/" +:+ owner +:+ "/" +:+ repo +:+ rest) release_tag
    = inr (owner, repo, release_tag) ∧
  requests_of
    (trace (fetch_release_data E
              ("https://api.github.com/repos/" +:+ owner +:+ "/" +:+ repo +:+ rest)
              release_tag w).2)
    = (requests_of (trace w) ++ [Request (api_url_of owner repo release_tag) []])%list.
Proof.
  intros Ho Hr Hrest.
  destruct (split_owner_repo owner repo rest Ho Hr Hrest) as [l Hl].
  pose proof (resolve_api_segments _ _ _ _ release_tag Hl) as Hres.
  split; [exact Hres|]. by apply fetch_requests.
Qed.

Lemma api_reference_resolved_witness :
  resolve ("https://api.github.com/repos/" +:+ "acme" +:+ "/" +:+ "tool" +:+ "/releases/latest")
    (Some "v1.0")
    = inr ("acme", "tool", Some "v1.0") ∧
  requests_of
    (trace (fetch_release_data api_server
              ("https://api.github.com/repos/" +:+ "acme" +:+ "/" +:+ "tool" +:+ "/releases/latest")
              (Some "v1.0") empty_world).2)
    = (requests_of (trace empty_world)
       ++ [Request (api_url_of "acme" "tool" (Some "v1.0")) []])%list.
Proof.
  apply (api_reference_resolved api_server "acme" "tool" "/releases/latest"
           (Some "v1.0") empty_world).
  - reflexivity.
  - reflexivity.
  - right. by exists "releases/latest".
Defined.

(** X6: the endpoint the code builds is itself an accepted API reference
    with the same owner and repo: resolving it gives them back, whatever
    tag the endpoint was built for. *)
Theorem endpoint_resolves_back (owner repo : string) (tag release_tag : option string) :
  Py.contains "/" owner = false →
  Py.contains "/" repo = false →
  resolve (api_url_of owner repo tag) release_tag = inr (owner, repo, release_tag).
Proof.
  intros Ho Hr.
  assert (∃ rest', api_url_of owner repo tag
                   = api_prefix +:+ owner +:+ "/" +:+ repo +:+ "/" +:+ rest')
    as [rest' ->].
  { unfold api_url_of. destruct tag as [[|c t]|]; eexists;
      rewrite !str_app_assoc; reflexivity. }
  destruct (split_owner_repo owner repo ("/" +:+ rest') Ho Hr) as [l Hl]; [eauto|].
  by apply (resolve_api_segments _ _ _ l).
Qed.

Lemma endpoint_resolves_back_witness :
  resolve (api_url_of "acme" "tool" (Some "v2.0")) None = inr ("acme", "tool", None).
Proof.
  apply (endpoint_resolves_back "acme" "tool" (Some "v2.0") None); reflexivity.
Defined.

(** X7: a web reference [https://github.com/<owner>/<repo>/releases/tag/<tag>]
    with a non-empty tag, given with no requested tag or with the same
    tag, resolves to that owner, repo and tag, and the one request goes to
    the endpoint of that tag, not to the latest release. *)
Theorem web_reference_with_tag_resolved (E : env) (owner repo tag : string)
    (release_tag : option string) (w : world) :
  Py.contains "/" owner = false →
  Py.contains "/" repo = false →
  tag ≠ "" →
  Py.contains "releases/tag/" tag = false →
  Py.strip tag "/" = tag →
  Py.truthy_str release_tag = false ∨ release_tag = Some tag →
  resolve ("https://github.com/" +:+ owner +:+ "/" +:+ repo +:+ "/releases/tag/" +:+ tag)
    release_tag
    = inr (owner, repo, Some tag) ∧
  requests_of
    (trace (fetch_release_data E
              ("https://github.com/" +:+ owner +:+ "/" +:+ repo +:+ "/releases/tag/" +:+ tag)
              release_tag w).2)
    = (requests_of (trace w) ++
       [Request ("https://api.github.com/repos/" +:+ owner +:+ "/" +:+ repo
                 +:+ "/releases/tags/" +:+ tag) []])%list.
Proof.
  intros Ho Hr Hne Hc Hs Hagree.
  assert (Hres : resolve ("https://github.com/" +:+ owner +:+ "/" +:+ repo
                          +:+ "/releases/tag/" +:+ tag) release_tag
                 = inr (owner, repo, Some tag)).
  { destruct (split_owner_repo owner repo ("/releases/tag/" +:+ tag) Ho Hr) as [l Hl].
    { right. by exists ("releases/tag/" +:+ tag). }
    change "https://github.com/" with web_prefix.
    rewrite (resolve_web_segments _ _ _ _ release_tag Hl).
    replace (web_prefix +:+ owner +:+ "/" +:+ repo +:+ "/releases/tag/" +:+ tag)
      with ((web_prefix +:+ owner +:+ "/" +:+ repo +:+ "/") +:+ tag_marker +:+ tag)
      by (rewrite !str_app_assoc; reflexivity).
    rewrite contains_app. cbn zeta.
    replace ((web_prefix +:+ owner +:+ "/" +:+ repo +:+ "/") +:+ tag_marker +:+ tag)
      with (web_prefix +:+ (owner +:+ "/" +:+ repo +:+ "/") +:+ tag_marker +:+ tag)
      by (rewrite !str_app_assoc; reflexivity).
    rewrite embedded_tag_extracted by done.
    destruct Hagree as [Hnone| ->].
    - by destruct release_tag as [[|c t]|].
    - destruct tag as [|c t]; [done|]. by rewrite String.eqb_refl. }
  split; [exact Hres|].
  rewrite (fetch_requests E _ _ owner repo (Some tag)) by done.
  unfold api_url_of. destruct tag as [|c t]; [done|].
  by rewrite !str_app_assoc.
Qed.

Lemma web_reference_with_tag_resolved_witness :
  resolve ("https://github.com/" +:+ "acme" +:+ "/" +:+ "tool" +:+ "/releases/tag/" +:+ "v2.0")
    None
    = inr ("acme", "tool", Some "v2.0") ∧
  requests_of
    (trace (fetch_release_data api_server
              ("https://github.com/" +:+ "acme" +:+ "/" +:+ "tool" +:+ "/releases/tag/" +:+ "v2.0")
              None empty_world).2)
    = (requests_of (trace empty_world) ++
       [Request ("https://api.github.com/repos/" +:+ "acme" +:+ "/" +:+ "tool"
                 +:+ "/releases/tags/" +:+ "v2.0") []])%list.
Proof.
  apply (web_reference_with_tag_resolved api_server "acme" "tool" "v2.0" None empty_world).
  - reflexivity.
  - reflexivity.
  - discriminate.
  - reflexivity.
  - reflexivity.
  - by left.
Defined.

(** X8: a web reference [https://github.com/<owner>/<repo>] (followed by
    nothing or by ["/..."]) that holds no [releases/tag/] resolves to that
    owner and repo with the requested tag, and the one request goes to the
    endpoint built from them: the tag's when a tag is requested, the latest
    release otherwise. *)
Theorem web_reference_resolved (E : env) (owner repo rest : string)
    (release_tag : option string) (w : world) :
  Py.contains "/" owner = false →
  Py.contains "/" repo = false →
  rest = "" ∨ (∃ rest', rest = "/" +:+ rest') →
  Py.contains "releases/tag/"
    ("https://github.com/" +:+ owner +:+ "/" +:+ repo +:+ rest) = false →
  resolve ("https://github.com/" +:+ owner +:+ "/" +:+ repo +:+ rest) release_tag
    = inr (owner, repo, release_tag) ∧
  requests_of
    (trace (fetch_release_data E
              ("https://github.com/" +:+ owner +:+ "/" +:+ repo +:+ rest)
              release_tag w).2)
    = (requests_of (trace w) ++ [Request (api_url_of owner repo release_tag) []])%list.
Proof.
  intros Ho Hr Hrest Hc.
  destruct (split_owner_repo owner repo rest Ho Hr Hrest) as [l Hl].
  pose proof (resolve_web_segments _ _ _ _ release_tag Hl) as Hres.
  unfold web_prefix, tag_marker in Hres. rewrite Hc in Hres.
  split; [exact Hres|]. by apply fetch_requests.
Qed.

Lemma web_reference_resolved_witness :
  resolve ("https://github.com/" +:+ "acme" +:+ "/" +:+ "tool" +:+ "") (Some "v1.0")
    = inr ("acme", "tool", Some "v1.0") ∧
  requests_of
    (trace (fetch_release_data api_server
              ("https://github.com/" +:+ "acme" +:+ "/" +:+ "tool" +:+ "")
              (Some "v1.0") empty_world).2)
    = (requests_of (trace empty_world)
       ++ [Request (api_url_of "acme" "tool" (Some "v1.0")) []])%list.
Proof.
  apply (web_reference_resolved api_server "acme" "tool" "" (Some "v1.0") empty_world).
  - reflexivity.
  - reflexivity.
  - by left.
  - reflexivity.
Defined.

(** ** fetch_release_data: the request *)

Lemma read_all_clean (rs : list read_result) (w : world) :
  read_failure rs = None → read_all rs w = (Ret (delivered rs), w).
Proof.
  induction rs as [|[[|b data]|e] rs IH]; intros Hrf; try done.
  cbn [read_all delivered]. unfold bind. by rewrite IH.
Qed.

Lemma read_all_failure (rs : list read_result) (w : world) (e : exn) :
  read_failure rs = Some e → read_all rs w = (Exc e, w).
Proof.
  induction rs as [|[[|b data]|e'] rs IH]; intros Hrf; try done.
  - cbn [read_all]. unfold bind. by rewrite IH.
  - by injection Hrf as ->.
Qed.

(** X9: when the reference is accepted, the server answers and the body
    parses, the manifest returned is the parse of the whole body; one
    request was made and nothing was printed or written. *)
Theorem fetch_returns_manifest (E : env) (repo_url : string)
    (release_tag : option string) (owner repo : string) (tag : option string)
    (w : world) (resp : response) (data : release_data) :
  resolve repo_url release_tag = inr (owner, repo, tag) →
  server E (length (requests_of (trace w))) (Request (api_url_of owner repo tag) [])
    = Opened resp →
  read_failure (reads resp) = None →
  json_loads E (delivered (reads resp)) = Some data →
  fetch_release_data E repo_url release_tag w =
    (Ret data,
     World (files w) (ticks w)
           (trace w ++ [EvRequest (Request (api_url_of owner repo tag) [])])).
Proof.
  intros Hres Hsrv Hrf Hjson. unfold fetch_release_data. rewrite Hres.
  unfold try_except, bind, urlopen. rewrite Hsrv.
  rewrite read_all_clean by done. by rewrite Hjson.
Qed.

Lemma fetch_returns_manifest_witness :
  fetch_release_data api_server "https://github.com/acme/tool" (Some "v1.0") empty_world =
    (Ret manifest_v1,
     World (files empty_world) (ticks empty_world)
           (trace empty_world ++
            [EvRequest (Request (api_url_of "acme" "tool" (Some "v1.0")) [])])).
Proof.
  apply (fetch_returns_manifest api_server "https://github.com/acme/tool" (Some "v1.0")
           "acme" "tool" (Some "v1.0") empty_world (Response None [Chunk abcde]) manifest_v1);
    reflexivity.
Defined.

(** X10: a body that [json.loads] rejects is not one of the failures the
    [except] clause names: the exception leaves the function as it is,
    without the fetch-error message and without the exit. *)
Theorem unparsable_manifest_escapes (E : env) (repo_url : string)
    (release_tag : option string) (owner repo : string) (tag : option string)
    (w : world) (resp : response) :
  resolve repo_url release_tag = inr (owner, repo, tag) →
  server E (length (requests_of (trace w))) (Request (api_url_of owner repo tag) [])
    = Opened resp →
  read_failure (reads resp) = None →
  json_loads E (delivered (reads resp)) = None →
  ∃ what,
    fetch_release_data E repo_url release_tag w =
      (Exc (ValueError what),
       World (files w) (ticks w)
             (trace w ++ [EvRequest (Request (api_url_of owner repo tag) [])])).
Proof.
  intros Hres Hsrv Hrf Hjson. eexists. unfold fetch_release_data. rewrite Hres.
  unfold try_except, bind, urlopen. rewrite Hsrv.
  rewrite read_all_clean by done. by rewrite Hjson.
Qed.

Lemma unparsable_manifest_escapes_witness :
  ∃ what,
    fetch_release_data (serves five_bytes) "https://github.com/acme/tool" None empty_world =
      (Exc (ValueError what),
       World (files empty_world) (ticks empty_world)
             (trace empty_world ++
              [EvRequest (Request (api_url_of "acme" "tool" None) [])])).
Proof.
  apply (unparsable_manifest_escapes (serves five_bytes) "https://github.com/acme/tool" None
           "acme" "tool" None empty_world five_bytes);
    reflexivity.
Defined.

(** X11: when the exchange for the manifest fails with a transport error,
    at [urlopen] or while the body is read, the whole run ends there with
    the fetch-error message and exit code 1: nothing is listed, nothing is
    downloaded and no file is touched. *)
Theorem fetch_failure_ends_run (E : env) (a : args) (owner repo : string)
    (tag : option string) (w : world) (e : exn) :
  resolve (arg_url a) (arg_release a) = inr (owner, repo, tag) →
  answer_failure
    (server E (length (requests_of (trace w))) (Request (api_url_of owner repo tag) []))
    = Some e →
  is_transport e = true →
  main E a w =
    (Exc (SystemExit 1),
     World (files w) (ticks w)
           (trace w ++ [EvRequest (Request (api_url_of owner repo tag) []);
                        EvPrint (MsgFetchError e)])).
Proof.
  intros Hres Hfail He. unfold main, bind at 1, fetch_release_data. rewrite Hres.
  unfold try_except, bind, urlopen.
  destruct (server E _ _) as [resp|e']; cbn [answer_failure] in Hfail.
  - rewrite (read_all_failure _ _ e) by done. rewrite He. cbn.
    by rewrite <- app_assoc.
  - injection Hfail as ->. rewrite He. cbn. by rewrite <- app_assoc.
Qed.

Lemma fetch_failure_ends_run_witness :
  main refuses_first
    (Args "https://github.com/acme/tool" None true "out" None None) empty_world =
    (Exc (SystemExit 1),
     World (files empty_world) (ticks empty_world)
           (trace empty_world ++
            [EvRequest (Request (api_url_of "acme" "tool" None) []);
             EvPrint (MsgFetchError (HTTPError 404))])).
Proof.
  apply (fetch_failure_ends_run refuses_first
           (Args "https://github.com/acme/tool" None true "out" None None)
           "acme" "tool" None empty_world (HTTPError 404));
    reflexivity.
Defined.

(** ** download_file_with_progress *)

Lemma messages_of_app (tr1 tr2 : list event) :
  messages_of (tr1 ++ tr2) = (messages_of tr1 ++ messages_of tr2)%list.
Proof.
  induction tr1 as [|[r|p m|m] tr1 IH]; simpl; [done|..]; by rewrite IH.
Qed.




(** The [try] block, whatever the disk and the server: at most one
    request, to the given URL; every open is of the target, in write mode
    only when the target was not on disk; no other file changes. *)
Lemma download_body_frame (E : env) (url target_path : string)
    (expected_size : option Z) (w : world) :
  ∃ tr,
    trace (download_body E url target_path expected_size w).2 = (trace w ++ tr)%list ∧
    (requests_of tr = [] ∨ ∃ headers, requests_of tr = [Request url headers]) ∧
    Forall (λ o, o = (target_path, if files w !! target_path is Some _ then AB else WB))
           (opens_of tr) ∧
    (∀ q, q ≠ target_path →
          files (download_body E url target_path expected_size w).2 !! q = files w !! q).
Proof.
  destruct (files w !! target_path) as [c|] eqn:Hp.
  - destruct (download_body_existing E url target_path expected_size w c Hp)
      as (tr & k & Htr & Hf & Hop & Hreq & _).
    exists tr. repeat split; auto.
    + rewrite Hreq. destruct (_ && _); eauto.
    + intros q Hq. rewrite Hf. by apply lookup_insert_ne.
  - unfold download_body, bind. rewrite prepare_fresh by done.
    destruct (transfer_frame E target_path (Request url []) WB 0 w [])
      as (tr & k & Htr & Hreq & Hop & _ & Hf); [right; auto|].
    assert (Hother : ∀ q, q ≠ target_path →
              files (transfer E target_path (Request url []) WB 0 w).2 !! q = files w !! q).
    { intros q Hq. destruct Hf as [-> | ->]; [by apply lookup_insert_ne|done]. }
    destruct (transfer E target_path (Request url []) WB 0 w) as [[[]|e] w1];
      cbn [snd] in *.
    + destruct (verify_frame target_path expected_size w1)
        as (tr' & Htr' & Hreq' & Hop' & Hfv).
      rewrite Htr', Hfv, Htr.
      exists (EvRequest (Request url []) :: tr ++ tr')%list. repeat split; auto.
      * by rewrite <- app_assoc.
      * right. exists []. cbn. by rewrite requests_of_app, Hreq, Hreq'.
      * cbn. by rewrite opens_of_app, Hop', app_nil_r.
    + rewrite Htr. exists (EvRequest (Request url []) :: tr). repeat split; auto.
      right. exists []. cbn. by rewrite Hreq.
Qed.

(** The same for the whole function, which in addition never lets a
    transport error out. *)
Lemma download_frame (E : env) (url target_path : string)
    (expected_size : option Z) (w : world) :
  ∃ tr,
    trace (download_file_with_progress E url target_path expected_size w).2
      = (trace w ++ tr)%list ∧
    (requests_of tr = [] ∨ ∃ headers, requests_of tr = [Request url headers]) ∧
    Forall (λ o, o = (target_path, if files w !! target_path is Some _ then AB else WB))
           (opens_of tr) ∧
    (∀ q, q ≠ target_path →
          files (download_file_with_progress E url target_path expected_size w).2 !! q
          = files w !! q) ∧
    (∀ e, (download_file_with_progress E url target_path expected_size w).1 = Exc e →
          is_transport e = false).
Proof.
  destruct (download_body_frame E url target_path expected_size w)
    as (tr & Htr & Hreq & Hop & Hf).
  pose proof (download_handler E url target_path expected_size w) as Hh.
  destruct (download_body E url target_path expected_size w) as [[[]|e] w1];
    cbn [snd] in *; rewrite Hh.
  - exists tr. repeat split; auto. intros e [=].
  - destruct (is_transport e) eqn:He.
    + exists (tr ++ [EvPrint (MsgDownloadFailed target_path e)])%list.
      cbn [fst snd trace files]. rewrite Htr, app_assoc.
      rewrite requests_of_app, opens_of_app. cbn. rewrite !app_nil_r.
      repeat split; auto. intros e' [=].
    + exists tr. repeat split; auto. intros e' [= <-]. exact He.
Qed.

(** X13: a download changes no file but its target, whatever the server
    answers and however the call ends; the target is never opened for
    writing from scratch when it is on disk. *)
Theorem download_touches_only_target (E : env) (url target_path : string)
    (expected_size : option Z) (w : world) :
  (∀ q, q ≠ target_path →
        files (download_file_with_progress E url target_path expected_size w).2 !! q
        = files w !! q) ∧
  ∃ tr,
    trace (download_file_with_progress E url target_path expected_size w).2
      = (trace w ++ tr)%list ∧
    Forall (λ o, o = (target_path, if files w !! target_path is Some _ then AB else WB))
           (opens_of tr).
Proof.
  destruct (download_frame E url target_path expected_size w)
    as (tr & Htr & _ & Hop & Hf & _).
  split; [exact Hf|]. by exists tr.
Qed.

(** X14: a transport error never leaves the function, whatever the server
    and the disk: if the call ends with an exception, it is not an
    HTTPError or a URLError. *)
Theorem download_contains_transport_errors (E : env) (url target_path : string)
    (expected_size : option Z) (w : world) (e : exn) :
  (download_file_with_progress E url target_path expected_size w).1 = Exc e →
  is_transport e = false.
Proof.
  destruct (download_frame E url target_path expected_size w) as (tr & _ & _ & _ & _ & He).
  apply He.
Qed.

Lemma download_contains_transport_errors_witness :
  is_transport ZeroDivisionError = false.
Proof.
  apply (download_contains_transport_errors (serves five_bytes_unsized)
           "https://h/a.zip" "out/a.zip" (Some 5) empty_world ZeroDivisionError).
  reflexivity.
Defined.

(** X15: on a target that is not on disk or is empty, an answer without
    a usable Content-Length (none, or zero) whose first read brings bytes
    ends the call with ZeroDivisionError, which is not caught: the first
    chunk is on disk, nothing of the progress was printed. *)
Theorem missing_length_divides_by_zero (E : env) (url target_path : string)
    (expected_size : option Z) (w : world) (resp : response)
    (b : Byte.byte) (data : list Byte.byte) (rest : list read_result) :
  on_disk w target_path = [] →
  (∀ headers, server E (length (requests_of (trace w))) (Request url headers) = Opened resp) →
  default 0 (content_length resp) = 0 →
  reads resp = Chunk (b :: data) :: rest →
  (download_file_with_progress E url target_path expected_size w).1
    = Exc ZeroDivisionError ∧
  files (download_file_with_progress E url target_path expected_size w).2
    = <[target_path := b :: data]> (files w) ∧
  messages_of (trace (download_file_with_progress E url target_path expected_size w).2)
    = messages_of (trace w).
Proof.
  intros Hdisk Hsrv Hcl Hreads.
  pose proof (download_handler E url target_path expected_size w) as Hh.
  unfold download_body, bind in Hh. unfold on_disk in Hdisk.
  destruct (files w !! target_path) as [c|] eqn:Hp.
  - cbn in Hdisk. subst c.
    rewrite (prepare_resume _ _ _ _ []) in Hh; [|done|].
    2:{ destruct expected_size as [d|]; [|done]. cbn.
        destruct (Z.eqb_spec d 0) as [->|Hd]; [done|].
        cbn. rewrite bool_decide_eq_false_2; [done|]. intros [=]. lia. }
    unfold transfer, bind, urlopen in Hh. rewrite Hsrv in Hh.
    unfold open_file, time_time in Hh. cbn [files ticks trace] in Hh.
    rewrite Hp, Hcl, Hreads in Hh. cbn [stream] in Hh.
    unfold bind, file_write, py_div in Hh. cbn in Hh.
    rewrite Hh. cbn. rewrite Hp. cbn. repeat split.
    rewrite !messages_of_app. cbn. by rewrite !app_nil_r.
  - rewrite prepare_fresh in Hh by done.
    unfold transfer, bind, urlopen in Hh. rewrite Hsrv in Hh.
    unfold open_file, time_time in Hh. cbn [files ticks trace] in Hh.
    rewrite Hcl, Hreads in Hh. cbn [stream] in Hh.
    unfold bind, file_write, py_div in Hh. cbn in Hh.
    rewrite Hh. cbn. rewrite lookup_insert_eq. cbn. repeat split.
    + by rewrite insert_insert_eq.
    + rewrite !messages_of_app. cbn. by rewrite !app_nil_r.
Qed.

Lemma missing_length_divides_by_zero_witness :
  (download_file_with_progress (serves five_bytes_unsized) "https://h/a.zip"
     "out/a.zip" (Some 5) empty_world).1 = Exc ZeroDivisionError ∧
  files (download_file_with_progress (serves five_bytes_unsized) "https://h/a.zip"
           "out/a.zip" (Some 5) empty_world).2
    = <["out/a.zip" := Byte.x61 :: [Byte.x62; Byte.x63; Byte.x64; Byte.x65]]>
        (files empty_world) ∧
  messages_of (trace (download_file_with_progress (serves five_bytes_unsized)
                        "https://h/a.zip" "out/a.zip" (Some 5) empty_world).2)
    = messages_of (trace empty_world).
Proof.
  apply (missing_length_divides_by_zero (serves five_bytes_unsized) "https://h/a.zip"
           "out/a.zip" (Some 5) empty_world five_bytes_unsized
           Byte.x61 [Byte.x62; Byte.x63; Byte.x64; Byte.x65] []).
  - reflexivity.
  - intros headers. reflexivity.
  - reflexivity.
  - reflexivity.
Defined.

(** A download that is not skipped, answered with reads that all succeed
    and a Content-Length that is the length of the body: the call returns,
    the target is its old bytes followed by the body, and the last message
    is the verdict of the size check. *)
Lemma clean_download_state (E : env) (url target_path : string) (declared : Z)
    (w : world) (resp : response) (n : Z) :
  (∀ headers, server E (length (requests_of (trace w))) (Request url headers) = Opened resp) →
  read_failure (reads resp) = None →
  content_length resp = Some n →
  n = Z.of_nat (length (delivered (reads resp))) →
  declared ≠ 0 →
  Z.of_nat (length (on_disk w target_path)) ≠ declared →
  ∃ w1,
    files w1 = <[target_path := (on_disk w target_path ++ delivered (reads resp))%list]>
                 (files w) ∧
    download_file_with_progress E url target_path (Some declared) w =
      (Ret tt,
       World (files w1) (ticks w1)
         (trace w1 ++
          [EvPrint
             (if bool_decide
                   (Z.of_nat (length (on_disk w target_path ++ delivered (reads resp)))
                    = declared)
              then MsgDone target_path
              else MsgSizeMismatch target_path)])).
Proof.
  intros Hsrv Hrf Hcl Hn Hd Hsize. unfold on_disk in *.
  assert (Hfs : ∀ c : list Byte.byte,
            default 0 (content_length resp) + Z.of_nat (length c) ≠ 0
            ∨ delivered (reads resp) = []).
  { intros c. rewrite Hcl. unfold default, from_option, id.
    destruct (delivered (reads resp)); [by right|left]. subst n. cbn [length]. lia. }
  destruct (files w !! target_path) as [c|] eqn:Hp;
    cbn [default from_option] in *; unfold id in *.
  - set (req := Request url [range_header (Z.of_nat (length c))]).
    destruct (transfer_clean E target_path req AB (Z.of_nat (length c)) w c resp)
      as [Hr Hf]; [by left|apply Hsrv|done|apply Hfs|].
    destruct (transfer E target_path req AB (Z.of_nat (length c)) w) as [r w1] eqn:Ht.
    cbn [fst snd] in Hr, Hf. subst r. exists w1. split; [done|].
    apply (completed_stream_checked E url target_path declared w w1 req AB
             (Z.of_nat (length c))); auto.
    + apply prepare_resume; [done|].
      rewrite bool_decide_eq_false_2; [apply andb_false_r|]. intros [=]. lia.
    + rewrite Hf. apply lookup_insert_eq.
  - destruct (transfer_clean E target_path (Request url []) WB 0 w [] resp)
      as [Hr Hf]; [by right|apply Hsrv|done|apply (Hfs [])|].
    destruct (transfer E target_path (Request url []) WB 0 w) as [r w1] eqn:Ht.
    cbn [fst snd] in Hr, Hf. subst r. exists w1. split; [done|].
    apply (completed_stream_checked E url target_path declared w w1 (Request url []) WB 0);
      auto.
    + by apply prepare_fresh.
    + rewrite Hf. apply lookup_insert_eq.
Qed.

Lemma last_message_app (tr : list event) (m d : message) :
  List.last (messages_of (tr ++ [EvPrint m])) d = m.
Proof. rewrite messages_of_app. cbn. apply last_last. Qed.

(** X16: with a declared size that is not zero, a download whose reads
    all succeed (and whose Content-Length is the length of the body) ends
    with the size check: the call returns, the target holds its old bytes
    followed by the body, and the last message is "Done" when that size is
    the declared one and the size mismatch otherwise. *)
Theorem clean_download_verdict (E : env) (url target_path : string) (declared : Z)
    (w : world) (resp : response) (n : Z) :
  (∀ headers, server E (length (requests_of (trace w))) (Request url headers) = Opened resp) →
  read_failure (reads resp) = None →
  content_length resp = Some n →
  n = Z.of_nat (length (delivered (reads resp))) →
  declared ≠ 0 →
  Z.of_nat (length (on_disk w target_path)) ≠ declared →
  (download_file_with_progress E url target_path (Some declared) w).1 = Ret tt ∧
  files (download_file_with_progress E url target_path (Some declared) w).2
    = <[target_path := (on_disk w target_path ++ delivered (reads resp))%list]> (files w) ∧
  List.last
    (messages_of (trace (download_file_with_progress E url target_path (Some declared) w).2))
    MsgNewline
  = if bool_decide
         (Z.of_nat (length (on_disk w target_path)) + n = declared)
    then MsgDone target_path
    else MsgSizeMismatch target_path.
Proof.
  intros Hsrv Hrf Hcl Hn Hd Hsize.
  destruct (clean_download_state E url target_path declared w resp n)
    as (w1 & Hf & ->); auto.
  cbn [fst snd files trace]. split; [done|]. split; [done|].
  rewrite last_message_app, length_app, Nat2Z.inj_add, <- Hn. reflexivity.
Qed.

Lemma clean_download_verdict_witness :
  (download_file_with_progress (serves sixty_more) "https://h/a.zip" "out/v1.0/a.zip"
     (Some 120) forty_on_disk).1 = Ret tt ∧
  files (download_file_with_progress (serves sixty_more) "https://h/a.zip" "out/v1.0/a.zip"
           (Some 120) forty_on_disk).2
    = <["out/v1.0/a.zip" :=
          (on_disk forty_on_disk "out/v1.0/a.zip" ++ delivered (reads sixty_more))%list]>
        (files forty_on_disk) ∧
  List.last
    (messages_of (trace (download_file_with_progress (serves sixty_more) "https://h/a.zip"
                           "out/v1.0/a.zip" (Some 120) forty_on_disk).2))
    MsgNewline
  = if bool_decide
         (Z.of_nat (length (on_disk forty_on_disk "out/v1.0/a.zip")) + 60 = 120)
    then MsgDone "out/v1.0/a.zip"
    else MsgSizeMismatch "out/v1.0/a.zip".
Proof.
  apply (clean_download_verdict (serves sixty_more) "https://h/a.zip" "out/v1.0/a.zip"
           120 forty_on_disk sixty_more 60).
  - intros headers. reflexivity.
  - reflexivity.
  - reflexivity.
  - reflexivity.
  - discriminate.
  - vm_compute. discriminate.
Defined.

(** X17: a download that completed with the declared size (not zero) is
    not repeated: the next call for the same asset finds the sizes equal,
    makes no request, leaves every file as it is and prints only that the
    file already exists. *)
Theorem rerun_after_completion_skips (E : env) (url target_path : string)
    (declared : Z) (w : world) (resp : response) (n : Z) :
  (∀ headers, server E (length (requests_of (trace w))) (Request url headers) = Opened resp) →
  read_failure (reads resp) = None →
  content_length resp = Some n →
  n = Z.of_nat (length (delivered (reads resp))) →
  declared ≠ 0 →
  Z.of_nat (length (on_disk w target_path)) ≠ declared →
  Z.of_nat (length (on_disk w target_path)) + n = declared →
  download_file_with_progress E url target_path (Some declared)
    (download_file_with_progress E url target_path (Some declared) w).2
  = (Ret tt,
     World (files (download_file_with_progress E url target_path (Some declared) w).2)
           (ticks (download_file_with_progress E url target_path (Some declared) w).2)
           (trace (download_file_with_progress E url target_path (Some declared) w).2
            ++ [EvPrint (MsgAlreadyExists target_path)])).
Proof.
  intros Hsrv Hrf Hcl Hn Hd Hsize Hsum.
  destruct (clean_download_state E url target_path declared w resp n)
    as (w1 & Hf & ->); auto.
  cbn [snd].
  apply (complete_target_skipped E url target_path declared _
           (on_disk w target_path ++ delivered (reads resp))); auto.
  - cbn [files]. rewrite Hf. apply lookup_insert_eq.
  - rewrite length_app, Nat2Z.inj_add, <- Hn. exact Hsum.
Qed.

Lemma rerun_after_completion_skips_witness :
  download_file_with_progress (serves sixty_more) "https://h/a.zip" "out/v1.0/a.zip" (Some 100)
    (download_file_with_progress (serves sixty_more) "https://h/a.zip" "out/v1.0/a.zip"
       (Some 100) forty_on_disk).2
  = (Ret tt,
     World (files (download_file_with_progress (serves sixty_more) "https://h/a.zip"
                     "out/v1.0/a.zip" (Some 100) forty_on_disk).2)
           (ticks (download_file_with_progress (serves sixty_more) "https://h/a.zip"
                     "out/v1.0/a.zip" (Some 100) forty_on_disk).2)
           (trace (download_file_with_progress (serves sixty_more) "https://h/a.zip"
                     "out/v1.0/a.zip" (Some 100) forty_on_disk).2
            ++ [EvPrint (MsgAlreadyExists "out/v1.0/a.zip")])).
Proof.
  apply (rerun_after_completion_skips (serves sixty_more) "https://h/a.zip"
           "out/v1.0/a.zip" 100 forty_on_disk sixty_more 60).
  - intros headers. reflexivity.
  - reflexivity.
  - reflexivity.
  - reflexivity.
  - discriminate.
  - vm_compute. discriminate.
  - reflexivity.
Defined.

(** What the loop has written when it ends, however it ends, is the
    start of what the reads deliver. *)
Lemma stream_written (E : env) (target_path : string) (file_size : Z)
    (start_time : Q) (rs : list read_result) :
  ∀ (bytes_so_far : Z) (w : world) (c : list Byte.byte),
    files w !! target_path = Some c →
    ∃ k, k `prefix_of` delivered rs ∧
         files (stream E target_path file_size start_time bytes_so_far rs w).2
         = <[target_path := (c ++ k)%list]> (files w).
Proof.
  induction rs as [|[[|b data]|e] rs IH]; intros bytes_so_far w c Hc.
  - exists []. split; [by exists []|]. cbn. rewrite app_nil_r. by rewrite insert_id.
  - exists []. split; [by exists []|]. cbn. rewrite app_nil_r. by rewrite insert_id.
  - cbn [stream delivered]. unfold bind, file_write, py_div, time_time, print, emit.
    destruct (Z.eqb file_size 0).
    + exists (b :: data). split; [by exists (delivered rs)|]. cbn. by rewrite Hc.
    + cbn [ret files ticks trace].
      match goal with
      | |- context [stream _ _ _ _ ?bsf rs ?w1] =>
          destruct (IH bsf w1 (c ++ b :: data)%list) as (k & Hk & Hf)
      end.
      { cbn. rewrite Hc. cbn. by rewrite lookup_insert_eq. }
      rewrite Hf. cbn [files]. rewrite Hc. cbn [default].
      exists ((b :: data) ++ k)%list. split.
      { destruct Hk as [t ->]. exists t. by rewrite <- app_assoc. }
      rewrite insert_insert_eq. by rewrite <- app_assoc.
  - exists []. split; [by exists []|]. cbn. rewrite app_nil_r. by rewrite insert_id.
Qed.

(** X18: for a target that is not on disk the request carries no Range
    header and is the only one made, whatever the server answers; the file
    is opened for writing only once the server has answered, and then holds
    exactly what the reads delivered before the call ended. *)
Theorem fresh_download_plain_request (E : env) (url target_path : string)
    (expected_size : option Z) (w : world) :
  files w !! target_path = None →
  ∃ tr,
    trace (download_file_with_progress E url target_path expected_size w).2
      = (trace w ++ tr)%list ∧
    requests_of tr = [Request url []] ∧
    Forall (λ o, o = (target_path, WB)) (opens_of tr) ∧
    (files (download_file_with_progress E url target_path expected_size w).2 = files w ∨
     ∃ k, k `prefix_of`
            (match server E (length (requests_of (trace w))) (Request url []) with
             | Opened resp => delivered (reads resp)
             | Refused _ => []
             end) ∧
          files (download_file_with_progress E url target_path expected_size w).2
          = <[target_path := k]> (files w)).
Proof.
  intros Hp.
  destruct (download_frame E url target_path expected_size w)
    as (tr & Htr & _ & Hop & _ & _).
  rewrite Hp in Hop.
  destruct (download_body_fresh E url target_path expected_size w Hp)
    as (tr0 & Htr0 & Hreq0 & _).
  pose proof (download_handler E url target_path expected_size w) as Hh.
  exists tr. split; [done|]. split; [|split; [done|]].
  - destruct (download_body E url target_path expected_size w) as [[[]|e] w1];
      cbn [snd] in *; rewrite Hh in Htr.
    + cbn [snd] in Htr. rewrite Htr0 in Htr. by apply app_inv_head in Htr as <-.
    + destruct (is_transport e); cbn [snd trace] in Htr; rewrite Htr0 in Htr.
      * rewrite <- app_assoc in Htr. apply app_inv_head in Htr as <-.
        rewrite requests_of_app, Hreq0. reflexivity.
      * by apply app_inv_head in Htr as <-.
  - assert (Hbody :
      files (download_body E url target_path expected_size w).2 = files w ∨
      ∃ k, k `prefix_of`
             (match server E (length (requests_of (trace w))) (Request url []) with
              | Opened resp => delivered (reads resp)
              | Refused _ => []
              end) ∧
           files (download_body E url target_path expected_size w).2
           = <[target_path := k]> (files w)).
    { unfold download_body, bind. rewrite prepare_fresh by done.
      unfold transfer, bind, urlopen.
      destruct (server E _ _) as [resp|e]; [|by left].
      unfold open_file, time_time. cbn [files ticks trace]. right.
      match goal with
      | |- context [stream E target_path ?fs ?st ?b ?rs ?w1] =>
          destruct (stream_written E target_path fs st rs b w1 [])
            as (k & Hk & Hf); [cbn; apply lookup_insert_eq|];
          destruct (stream E target_path fs st b rs w1) as [[[]|e] w2]
      end; cbn [snd] in Hf.
      - destruct (verify_frame target_path expected_size
                    (World (files w2) (ticks w2) (trace w2 ++ [EvPrint MsgNewline])))
          as (tr' & _ & _ & _ & Hfv).
        unfold print, emit. rewrite Hfv. cbn [files]. rewrite Hf. cbn [files].
        exists k. split; [done|]. by rewrite insert_insert_eq.
      - cbn [snd]. rewrite Hf. cbn [files].
        exists k. split; [done|]. by rewrite insert_insert_eq. }
    destruct (download_body E url target_path expected_size w) as [[[]|e] w1];
      cbn [snd] in *; rewrite Hh; [done|].
    destruct (is_transport e); done.
Qed.

Lemma fresh_download_plain_request_witness :
  ∃ tr,
    trace (download_file_with_progress (serves five_bytes) "https://h/a.zip" "out/a.zip"
             (Some 5) empty_world).2
      = (trace empty_world ++ tr)%list ∧
    requests_of tr = [Request "https://h/a.zip" []] ∧
    Forall (λ o, o = ("out/a.zip", WB)) (opens_of tr) ∧
    (files (download_file_with_progress (serves five_bytes) "https://h/a.zip" "out/a.zip"
              (Some 5) empty_world).2 = files empty_world ∨
     ∃ k, k `prefix_of`
            (match server (serves five_bytes) (length (requests_of (trace empty_world)))
                     (Request "https://h/a.zip" []) with
             | Opened resp => delivered (reads resp)
             | Refused _ => []
             end) ∧
          files (download_file_with_progress (serves five_bytes) "https://h/a.zip"
                   "out/a.zip" (Some 5) empty_world).2
          = <["out/a.zip" := k]> (files empty_world)).
Proof.
  apply (fresh_download_plain_request (serves five_bytes) "https://h/a.zip" "out/a.zip"
           (Some 5) empty_world).
  reflexivity.
Defined.

(** ** The batch *)

Lemma download_assets_cons (E : env) (output_dir : string) (a : asset)
    (rest : list asset) (w : world) :
  download_assets E output_dir (a :: rest) w =
    match download_file_with_progress E (asset_url a)
            (Py.path_join output_dir (asset_name a)) (Some (asset_size a))
            (announced a w) with
    | (Ret _, w1) => download_assets E output_dir rest w1
    | (Exc e, w1) => (Exc e, w1)
    end.
Proof. reflexivity. Qed.

Lemma download_assets_frame (E : env) (output_dir : string) (assets : list asset) :
  ∀ w, ∃ tr,
    trace (download_assets E output_dir assets w).2 = (trace w ++ tr)%list ∧
    map req_url (requests_of tr) `sublist_of` map asset_url assets ∧
    Forall (λ o, o.1 ∈ targets_of output_dir assets) (opens_of tr) ∧
    (∀ q, q ∉ targets_of output_dir assets →
          files (download_assets E output_dir assets w).2 !! q = files w !! q) ∧
    (∀ e, (download_assets E output_dir assets w).1 = Exc e → is_transport e = false).
Proof.
  induction assets as [|a rest IH]; intros w.
  - exists []. cbn. rewrite app_nil_r. repeat split; auto. intros e [=].
  - rewrite download_assets_cons.
    destruct (download_frame E (asset_url a) (Py.path_join output_dir (asset_name a))
                (Some (asset_size a)) (announced a w))
      as (tr1 & Htr1 & Hreq1 & Hop1 & Hf1 & He1).
    assert (Hreq : ∀ l, l `sublist_of` map asset_url rest →
                        (map req_url (requests_of tr1) ++ l)%list
                          `sublist_of` map asset_url (a :: rest)).
    { intros l Hl. destruct Hreq1 as [-> | [headers ->]]; cbn; by constructor. }
    assert (Hop : Forall (λ o, o.1 ∈ targets_of output_dir (a :: rest)) (opens_of tr1)).
    { eapply Forall_impl; [exact Hop1|]. intros o ->. cbn. apply elem_of_cons. by left. }
    destruct (download_file_with_progress E (asset_url a)
                (Py.path_join output_dir (asset_name a)) (Some (asset_size a))
                (announced a w)) as [[[]|e] w1]; cbn [fst snd] in *.
    + destruct (IH w1) as (tr2 & Htr2 & Hreq2 & Hop2 & Hf2 & He2).
      exists (EvPrint (MsgDownloading (asset_name a) (asset_size a)) :: tr1 ++ tr2)%list.
      split; [|split; [|split; [|split]]].
      * rewrite Htr2, Htr1. cbn. by rewrite <- !app_assoc.
      * cbn. rewrite requests_of_app, map_app. by apply Hreq.
      * cbn. rewrite opens_of_app. apply Forall_app. split; [done|].
        eapply Forall_impl; [exact Hop2|]. intros o Ho. cbn. apply elem_of_cons. by right.
      * intros q Hq. cbn in Hq. apply not_elem_of_cons in Hq as [Hq1 Hq2].
        rewrite Hf2 by done. by rewrite Hf1.
      * exact He2.
    + exists (EvPrint (MsgDownloading (asset_name a) (asset_size a)) :: tr1).
      split; [|split; [|split; [|split]]].
      * rewrite Htr1. cbn. by rewrite <- !app_assoc.
      * cbn. rewrite <- (app_nil_r (map req_url (requests_of tr1))).
        apply Hreq, sublist_nil_l.
      * exact Hop.
      * intros q Hq. cbn in Hq. apply not_elem_of_cons in Hq as [Hq1 Hq2].
        by rewrite Hf1.
      * intros e' [= <-]. by apply He1.
Qed.

Lemma download_assets_extends (E : env) (output_dir : string) (assets : list asset) :
  ∀ w, extends w (download_assets E output_dir assets w).2.
Proof.
  induction assets as [|a rest IH]; intros w; [apply extends_refl|].
  rewrite download_assets_cons.
  pose proof (download_extends E (asset_url a) (Py.path_join output_dir (asset_name a))
                (Some (asset_size a)) (announced a w)) as Hext.
  destruct (download_file_with_progress E (asset_url a)
              (Py.path_join output_dir (asset_name a)) (Some (asset_size a))
              (announced a w)) as [[[]|e] w1]; cbn [snd] in *.
  - eapply extends_trans; [|apply IH]. exact Hext.
  - exact Hext.
Qed.

(** X19: whatever the server does, the batch asks only for the URLs of
    the given assets, each at most once and in their order (assets already
    complete are not asked for), and it never ends with a transport
    error. *)
Theorem batch_requests_follow_assets (E : env) (output_dir : string)
    (assets : list asset) (w : world) :
  ∃ tr,
    trace (download_assets E output_dir assets w).2 = (trace w ++ tr)%list ∧
    map req_url (requests_of tr) `sublist_of` map asset_url assets ∧
    (∀ e, (download_assets E output_dir assets w).1 = Exc e → is_transport e = false).
Proof.
  destruct (download_assets_frame E output_dir assets w) as (tr & Htr & Hreq & _ & _ & He).
  by exists tr.
Qed.

(** X20: whatever the server does, the batch opens only the files
    [output_dir/<asset name>] of the given assets and changes no other
    file; and every file that was on disk is still there with its old bytes
    in front. *)
Theorem batch_writes_only_targets (E : env) (output_dir : string)
    (assets : list asset) (w : world) :
  (∃ tr,
     trace (download_assets E output_dir assets w).2 = (trace w ++ tr)%list ∧
     Forall (λ o, ∃ a, a ∈ assets ∧ o.1 = Py.path_join output_dir (asset_name a))
            (opens_of tr)) ∧
  (∀ q, (∀ a, a ∈ assets → q ≠ Py.path_join output_dir (asset_name a)) →
        files (download_assets E output_dir assets w).2 !! q = files w !! q) ∧
  extends w (download_assets E output_dir assets w).2.
Proof.
  destruct (download_assets_frame E output_dir assets w) as (tr & Htr & _ & Hop & Hf & _).
  split; [|split].
  - exists tr. split; [done|]. eapply Forall_impl; [exact Hop|].
    intros o Ho. unfold targets_of in Ho. apply list_elem_of_fmap in Ho as (a & -> & Ha).
    eauto.
  - intros q Hq. apply Hf. unfold targets_of. intros Hin.
    apply list_elem_of_fmap in Hin as (a & -> & Ha). by apply (Hq a).
  - apply download_assets_extends.
Qed.

(** ** The whole run *)

Lemma fetch_frame (E : env) (repo_url : string) (release_tag : option string) (w : world) :
  files (fetch_release_data E repo_url release_tag w).2 = files w ∧
  ∃ tr,
    trace (fetch_release_data E repo_url release_tag w).2 = (trace w ++ tr)%list ∧
    opens_of tr = [] ∧
    (length (requests_of tr) ≤ 1)%nat.
Proof.
  unfold fetch_release_data.
  destruct (resolve repo_url release_tag) as [msg|[[owner repo] tag]].
  - split; [done|]. exists [EvPrint msg]. by repeat split; cbn; auto.
  - unfold try_except, bind, urlopen.
    destruct (server E _ _) as [resp|e].
    + match goal with
      | |- context [read_all ?rs ?w1] =>
          pose proof (read_all_pure rs w1) as Hpure;
          destruct (read_all rs w1) as [[body|e] w2]; cbn [snd] in Hpure; subst w2
      end.
      * destruct (json_loads E body); (split; [done|]); eexists [_]; cbn; auto.
      * destruct (is_transport e); (split; [done|]).
        -- eexists [_; _]. cbn. rewrite <- app_assoc. auto.
        -- eexists [_]. cbn. auto.
    + destruct (is_transport e); (split; [done|]).
      * eexists [_; _]. cbn. rewrite <- app_assoc. auto.
      * eexists [_]. cbn. auto.
Qed.

Lemma filter_assets_frame (assets : list asset) (include exclude : option (list string))
    (w : world) :
  (∃ selected, filter_assets assets include exclude w = (Ret selected, w) ∧
               selected `sublist_of` assets) ∨
  filter_assets assets include exclude w =
    (Exc (SystemExit 1),
     World (files w) (ticks w) (trace w ++ [EvPrint MsgFilterConflict])).
Proof.
  unfold filter_assets.
  destruct (Py.truthy_list include); destruct (Py.truthy_list exclude); cbn [andb];
    [by right|left..]; eexists; split; try reflexivity; apply sublist_filter || reflexivity.
Qed.

Lemma print_listing_frame (assets : list asset) :
  ∀ w, print_listing assets w =
       (Ret tt,
        World (files w) (ticks w)
              (trace w ++ map (λ a, EvPrint (MsgListing (asset_name a) (asset_size a)))
                            assets)).
Proof.
  induction assets as [|a rest IH]; intros w.
  - cbn. rewrite app_nil_r. by destruct w.
  - cbn [print_listing]. unfold bind, print, emit. rewrite IH. cbn.
    by rewrite <- app_assoc.
Qed.

Lemma sublist_map {A B} (f : A → B) (l k : list A) :
  l `sublist_of` k → map f l `sublist_of` map f k.
Proof. induction 1; cbn; by constructor. Qed.

(** X21: without the download flag the run never opens or changes a
    file and makes at most one request (the one for the manifest),
    whatever the reference, the filters and the server. *)
Theorem listing_only_run_leaves_disk (E : env) (a : args) (w : world) :
  arg_download a = false →
  files (main E a w).2 = files w ∧
  ∃ tr,
    trace (main E a w).2 = (trace w ++ tr)%list ∧
    opens_of tr = [] ∧
    (length (requests_of tr) ≤ 1)%nat.
Proof.
  intros Hd. unfold main, bind.
  destruct (fetch_frame E (arg_url a) (arg_release a) w) as (Hf & tr & Htr & Hop & Hreq).
  destruct (fetch_release_data E (arg_url a) (arg_release a) w) as [[data|e] w1];
    cbn [snd] in *.
  2:{ split; [done|]. by exists tr. }
  destruct (filter_assets_frame (default [] (assets data)) (arg_include a) (arg_exclude a) w1)
    as [(selected & -> & Hsub) | ->].
  - unfold print, emit. rewrite print_listing_frame, Hd. cbn.
    split; [done|]. rewrite Htr. eexists. split.
    + rewrite <- !app_assoc. reflexivity.
    + rewrite !opens_of_app, !requests_of_app, Hop. cbn.
      assert (Hl : ∀ l : list asset,
                opens_of (map (λ a, EvPrint (MsgListing (asset_name a) (asset_size a))) l) = []
                ∧ requests_of (map (λ a, EvPrint (MsgListing (asset_name a) (asset_size a))) l)
                  = []).
      { induction l; cbn; auto. }
      destruct (Hl selected) as [-> ->]. rewrite !app_nil_r. auto.
  - cbn. split; [done|]. rewrite Htr. eexists. split.
    + rewrite <- !app_assoc. reflexivity.
    + rewrite !opens_of_app, !requests_of_app, Hop. cbn. rewrite !app_nil_r. auto.
Qed.

Lemma listing_only_run_leaves_disk_witness :
  files (main api_server (Args "https://github.com/acme/tool" (Some "v1.0") false "."
                            None (Some ["b.zip"])) empty_world).2 = files empty_world ∧
  ∃ tr,
    trace (main api_server (Args "https://github.com/acme/tool" (Some "v1.0") false "."
                              None (Some ["b.zip"])) empty_world).2
      = (trace empty_world ++ tr)%list ∧
    opens_of tr = [] ∧
    (length (requests_of tr) ≤ 1)%nat.
Proof.
  apply (listing_only_run_leaves_disk api_server
           (Args "https://github.com/acme/tool" (Some "v1.0") false "." None (Some ["b.zip"]))
           empty_world).
  reflexivity.
Defined.

(** X22: once the manifest is fetched, everything the run downloads
    belongs to that manifest and lands in the directory named after the
    manifest's own tag name (not the requested tag): every file opened is
    [output/<tag_name>/<name>] for an asset of the manifest, the URLs asked
    for are asset URLs of the manifest in its order, and no other file
    changes. *)
Theorem run_downloads_under_release_dir (E : env) (a : args) (w w1 : world)
    (data : release_data) :
  fetch_release_data E (arg_url a) (arg_release a) w = (Ret data, w1) →
  ∃ tr,
    trace (main E a w).2 = (trace w1 ++ tr)%list ∧
    Forall (λ o, ∃ x, x ∈ default [] (assets data) ∧
                      o.1 = Py.path_join (Py.path_join (arg_output a) (tag_name data))
                                         (asset_name x))
           (opens_of tr) ∧
    map req_url (requests_of tr) `sublist_of` map asset_url (default [] (assets data)) ∧
    (∀ q, (∀ x, x ∈ default [] (assets data) →
                q ≠ Py.path_join (Py.path_join (arg_output a) (tag_name data))
                                 (asset_name x)) →
          files (main E a w).2 !! q = files w !! q).
Proof.
  intros Hfetch.
  destruct (fetch_frame E (arg_url a) (arg_release a) w) as (Hf & _).
  rewrite Hfetch in Hf. cbn [snd] in Hf.
  unfold main, bind. rewrite Hfetch.
  destruct (filter_assets_frame (default [] (assets data)) (arg_include a) (arg_exclude a) w1)
    as [(selected & -> & Hsub) | ->].
  2:{ eexists [_]. cbn. repeat split; auto using sublist_nil_l.
      intros q _. by rewrite Hf. }
  unfold print, emit. rewrite print_listing_frame. cbn [files ticks trace].
  assert (Hl : ∀ l : list asset,
            opens_of (map (λ a, EvPrint (MsgListing (asset_name a) (asset_size a))) l) = []
            ∧ requests_of (map (λ a, EvPrint (MsgListing (asset_name a) (asset_size a))) l)
              = []).
  { induction l; cbn; auto. }
  destruct (Hl selected) as [Hlo Hlr].
  destruct (arg_download a).
  - match goal with
    | |- context [download_assets E ?dir selected ?w2] =>
        destruct (download_assets_frame E dir selected w2)
          as (tr & Htr & Hreq & Hop & Hfs & _);
        destruct (download_assets E dir selected w2) as [r w3]
    end.
    cbn [snd trace files] in *. rewrite Htr. eexists. split; [|split; [|split]].
    + rewrite <- !app_assoc. reflexivity.
    + rewrite !opens_of_app, Hlo. cbn.
      eapply Forall_impl; [exact Hop|]. intros o Ho. unfold targets_of in Ho.
      apply list_elem_of_fmap in Ho as (x & -> & Hx).
      exists x. split; [|done]. eapply sublist_subseteq; eauto.
    + rewrite !requests_of_app, Hlr. cbn.
      etrans; [exact Hreq|]. by apply sublist_map.
    + intros q Hq. rewrite Hfs, Hf; [done|]. unfold targets_of. intros Hin.
      apply list_elem_of_fmap in Hin as (x & -> & Hx).
      apply (Hq x); [|done]. eapply sublist_subseteq; eauto.
  - cbn. eexists. split; [|split; [|split]].
    + rewrite <- !app_assoc. reflexivity.
    + rewrite !opens_of_app, Hlo. cbn. constructor.
    + rewrite !requests_of_app, Hlr. cbn. apply sublist_nil_l.
    + intros q _. by rewrite Hf.
Qed.

Lemma run_downloads_under_release_dir_witness :
  ∃ tr,
    trace (main api_server (Args "https://github.com/acme/tool" (Some "v1.0") true "out"
                              None None) empty_world).2
      = (trace (World ∅ 0
                  [EvRequest (Request
                     "https://api.github.com/repos/acme/tool/releases/tags/v1.0" [])])
         ++ tr)%list ∧
    Forall (λ o, ∃ x, x ∈ default [] (assets manifest_v1) ∧
                      o.1 = Py.path_join
                              (Py.path_join
                                 (arg_output (Args "https://github.com/acme/tool"
                                                (Some "v1.0") true "out" None None))
                                 (tag_name manifest_v1))
                              (asset_name x))
           (opens_of tr) ∧
    map req_url (requests_of tr)
      `sublist_of` map asset_url (default [] (assets manifest_v1)) ∧
    (∀ q, (∀ x, x ∈ default [] (assets manifest_v1) →
                q ≠ Py.path_join
                      (Py.path_join
                         (arg_output (Args "https://github.com/acme/tool"
                                        (Some "v1.0") true "out" None None))
                         (tag_name manifest_v1))
                      (asset_name x)) →
          files (main api_server (Args "https://github.com/acme/tool" (Some "v1.0") true
                                    "out" None None) empty_world).2 !! q
          = files empty_world !! q).
Proof.
  apply (run_downloads_under_release_dir api_server
           (Args "https://github.com/acme/tool" (Some "v1.0") true "out" None None)
           empty_world
           (World ∅ 0
              [EvRequest (Request
                 "https://api.github.com/repos/acme/tool/releases/tags/v1.0" [])])
           manifest_v1).
  reflexivity.
Defined.

(** ** Progress reports *)

Lemma percent_bounds (b f : Z) :
  0 < b ≤ f →
  (0 < inject_Z b / inject_Z f * 100)%Q ∧ (inject_Z b / inject_Z f * 100 <= 100)%Q.
Proof.
  intros [Hb Hbf].
  assert (Hf : 0 < f) by lia.
  assert (Hx : (0 < inject_Z b)%Q) by (rewrite Zlt_Qlt in Hb; exact Hb).
  assert (Hxy : (inject_Z b <= inject_Z f)%Q) by (rewrite Zle_Qle in Hbf; exact Hbf).
  assert (Hy : (0 < inject_Z f)%Q) by (rewrite Zlt_Qlt in Hf; exact Hf).
  assert (Hlo : (0 < inject_Z b / inject_Z f)%Q).
  { apply Qlt_shift_div_l; [done|]. lra. }
  assert (Hhi : (inject_Z b / inject_Z f <= 1)%Q).
  { apply Qle_shift_div_r; [done|]. lra. }
  split; lra.
Qed.

Lemma percent_complete_full (f : Z) :
  f ≠ 0 → (inject_Z f / inject_Z f * 100 == 100)%Q.
Proof.
  intros Hf. field. intros Heq.
  apply Hf. unfold Qeq in Heq. cbn in Heq. lia.
Qed.

(** The reports of a loop whose reads all succeed, with a total that is
    not zero: one report per chunk, each counting what is on disk by
    then. *)
Lemma stream_progress (E : env) (target_path : string) (file_size : Z)
    (start_time : Q) (rs : list read_result) :
  file_size ≠ 0 →
  read_failure rs = None →
  ∀ (bytes_so_far : Z) (w : world),
    ∃ ms,
      (stream E target_path file_size start_time bytes_so_far rs w).1 = Ret tt ∧
      messages_of (trace (stream E target_path file_size start_time bytes_so_far rs w).2)
        = (messages_of (trace w) ++ ms)%list ∧
      Forall (λ m, ∃ b sp,
                m = MsgProgress b file_size (inject_Z b / inject_Z file_size * 100)%Q sp ∧
                bytes_so_far < b ≤ bytes_so_far + Z.of_nat (length (delivered rs))) ms ∧
      (delivered rs ≠ [] →
       ∃ sp, List.last ms MsgNewline =
             MsgProgress (bytes_so_far + Z.of_nat (length (delivered rs))) file_size
               (inject_Z (bytes_so_far + Z.of_nat (length (delivered rs)))
                / inject_Z file_size * 100)%Q sp).
Proof.
  intros Hfs. apply Z.eqb_neq in Hfs.
  induction rs as [|[[|x data]|e] rs IH]; intros Hrf bytes_so_far w.
  - exists []. cbn. rewrite app_nil_r. repeat split; auto. done.
  - exists []. cbn. rewrite app_nil_r. repeat split; auto. done.
  - cbn [stream]. unfold bind, file_write, py_div, time_time, print, emit.
    rewrite Hfs. cbn [ret files ticks trace].
    match goal with
    | |- context [stream _ _ _ _ ?bsf rs ?w1] =>
        destruct (IH Hrf bsf w1) as (ms & Hr & Hm & Hall & Hlast)
    end.
    rewrite Hr, Hm. cbn [trace]. rewrite messages_of_app. cbn [messages_of app].
    eexists (_ :: ms). split; [done|]. split; [by rewrite <- app_assoc|].
    cbn [delivered]. rewrite length_app. split.
    + constructor.
      * eexists _, _. split; [reflexivity|]. cbn [length]. lia.
      * eapply Forall_impl; [exact Hall|]. intros m (b & sp & -> & Hb).
        eexists _, _. split; [reflexivity|]. cbn [length] in *. lia.
    + intros _. destruct (delivered rs) as [|y k] eqn:Hd.
      * destruct ms as [|m ms].
        -- eexists. cbn [List.last length]. rewrite Nat.add_0_r. reflexivity.
        -- apply Forall_cons in Hall as [(b & sp & _ & Hb) _]. cbn in Hb. lia.
      * destruct Hlast as [sp Hsp]; [done|].
        destruct ms as [|m ms]; [done|].
        exists sp. cbn [List.last]. cbn [List.last] in Hsp. rewrite Hsp.
        by rewrite Nat2Z.inj_add, Z.add_assoc.
  - done.
Qed.

(** The size check on a target that is on disk prints one verdict. *)
Lemma verify_message (target_path : string) (expected_size : option Z) (w : world)
    (c : list Byte.byte) :
  files w !! target_path = Some c →
  ∃ m, (m = MsgDone target_path ∨ m = MsgSizeMismatch target_path) ∧
       verify target_path expected_size w =
         (Ret tt, World (files w) (ticks w) (trace w ++ [EvPrint m])).
Proof.
  intros Hp. unfold verify, bind, os_path_getsize, print, emit.
  destruct (Py.truthy_int expected_size); [|eauto].
  rewrite Hp. case_bool_decide; eauto.
Qed.

Lemma transfer_messages (E : env) (target_path : string) (req : request)
    (mode : open_mode) (existing_size : Z) (w : world) (resp : response) :
  server E (length (requests_of (trace w))) req = Opened resp →
  read_failure (reads resp) = None →
  default 0 (content_length resp) + existing_size ≠ 0 →
  ∃ ms,
    messages_of (trace (transfer E target_path req mode existing_size w).2)
      = (messages_of (trace w) ++ ms ++ [MsgNewline])%list ∧
    Forall (λ m, ∃ b sp,
              m = MsgProgress b (default 0 (content_length resp) + existing_size)
                    (inject_Z b
                     / inject_Z (default 0 (content_length resp) + existing_size)%Z
                     * 100)%Q sp ∧
              existing_size < b ≤ existing_size + Z.of_nat (length (delivered (reads resp))))
           ms ∧
    (delivered (reads resp) ≠ [] →
     ∃ sp, List.last ms MsgNewline =
           MsgProgress (existing_size + Z.of_nat (length (delivered (reads resp))))
             (default 0 (content_length resp) + existing_size)
             (inject_Z (existing_size + Z.of_nat (length (delivered (reads resp))))%Z
              / inject_Z (default 0 (content_length resp) + existing_size)%Z * 100)%Q sp).
Proof.
  intros Hsrv Hrf Hfs. unfold transfer, bind, urlopen. rewrite Hsrv.
  unfold open_file, time_time. cbn [files ticks trace].
  match goal with
  | |- context [stream E target_path ?fs ?st ?b ?rs ?w1] =>
      destruct (stream_progress E target_path fs st rs Hfs Hrf b w1)
        as (ms & Hr & Hm & Hall & Hlast);
      destruct (stream E target_path fs st b rs w1) as [r w2]
  end.
  cbn [fst snd] in Hr, Hm. subst r. cbn [print emit snd trace].
  exists ms. split; [|done].
  rewrite messages_of_app, Hm. cbn [trace]. rewrite !messages_of_app. cbn.
  by rewrite !app_nil_r, <- app_assoc.
Qed.

(** X23: when a download is not skipped, its reads all succeed and the
    Content-Length is the length of a non-empty body, the output is a run
    of progress reports, a newline and the verdict. Every report counts
    more bytes than were on disk before and at most the total (old size
    plus Content-Length), so its percentage lies in (0, 100]; the last
    report counts the total and shows 100 percent. *)
Theorem progress_reports_reach_total (E : env) (url target_path : string)
    (expected_size : option Z) (w : world) (resp : response) (n : Z) :
  (∀ headers, server E (length (requests_of (trace w))) (Request url headers) = Opened resp) →
  read_failure (reads resp) = None →
  content_length resp = Some n →
  n = Z.of_nat (length (delivered (reads resp))) →
  delivered (reads resp) ≠ [] →
  Py.truthy_int expected_size &&
    bool_decide (Some (Z.of_nat (length (on_disk w target_path))) = expected_size) = false →
  ∃ ms verdict,
    messages_of (trace (download_file_with_progress E url target_path expected_size w).2)
      = (messages_of (trace w) ++ ms ++ [MsgNewline; verdict])%list ∧
    (verdict = MsgDone target_path ∨ verdict = MsgSizeMismatch target_path) ∧
    Forall (λ m, ∃ b percent_complete sp,
              m = MsgProgress b (Z.of_nat (length (on_disk w target_path)) + n)
                    percent_complete sp ∧
              Z.of_nat (length (on_disk w target_path)) < b
                ≤ Z.of_nat (length (on_disk w target_path)) + n ∧
              (0 < percent_complete)%Q ∧ (percent_complete <= 100)%Q) ms ∧
    ∃ percent_complete sp,
      List.last ms MsgNewline =
        MsgProgress (Z.of_nat (length (on_disk w target_path)) + n)
          (Z.of_nat (length (on_disk w target_path)) + n) percent_complete sp ∧
      (percent_complete == 100)%Q.
Proof.
  intros Hsrv Hrf Hcl Hn Hne Hcond.
  assert (Hpos : 0 < n).
  { subst n. destruct (delivered (reads resp)); [done|]. cbn [length]. lia. }
  assert (Hmain : ∃ req mode c,
            c = on_disk w target_path ∧
            prepare url target_path expected_size w
              = (Ret (Some (req, mode, Z.of_nat (length c))), w) ∧
            server E (length (requests_of (trace w))) req = Opened resp ∧
            ((mode = AB ∧ files w !! target_path = Some c) ∨
             (mode = WB ∧ files w !! target_path = None ∧ c = []))).
  { unfold on_disk in *. destruct (files w !! target_path) as [c|] eqn:Hp.
    - eexists _, AB, c. split; [done|]. split; [by apply prepare_resume|]. auto.
    - eexists _, WB, []. split; [done|]. split; [by apply prepare_fresh|]. auto. }
  destruct Hmain as (req & mode & c & Hc & Hprep & Hreq & Hmode). rewrite <- Hc in *.
  assert (Hfs : default 0 (content_length resp) + Z.of_nat (length c) ≠ 0).
  { rewrite Hcl. unfold default, from_option, id. lia. }
  destruct (transfer_messages E target_path req mode (Z.of_nat (length c)) w resp)
    as (ms & Hm & Hall & Hlast); auto.
  destruct (transfer_clean E target_path req mode (Z.of_nat (length c)) w c resp)
    as [Hr Hf]; auto.
  pose proof (download_handler E url target_path expected_size w) as Hh.
  unfold download_body, bind in Hh. rewrite Hprep in Hh.
  destruct (transfer E target_path req mode (Z.of_nat (length c)) w) as [r w1].
  cbn [fst snd] in *. subst r.
  destruct (verify_message target_path expected_size w1 (c ++ delivered (reads resp)))
    as (verdict & Hv & Hverify).
  { rewrite Hf. apply lookup_insert_eq. }
  rewrite Hverify in Hh. rewrite Hh. cbn [snd trace].
  exists ms, verdict. split; [|split; [done|split]].
  - rewrite messages_of_app, Hm. cbn. by rewrite <- !app_assoc.
  - eapply Forall_impl; [exact Hall|]. intros m (b & sp & -> & Hb).
    rewrite Hcl in *. unfold default, from_option, id in *.
    rewrite (Z.add_comm n). eexists _, _, _. split; [reflexivity|].
    split; [lia|]. apply percent_bounds. lia.
  - destruct (Hlast Hne) as [sp Hsp]. rewrite Hsp.
    rewrite Hcl in *. unfold default, from_option, id in *.
    rewrite (Z.add_comm n), <- Hn. eexists _, _. split; [reflexivity|].
    apply percent_complete_full. lia.
Qed.

Lemma progress_reports_reach_total_witness :
  ∃ ms verdict,
    messages_of (trace (download_file_with_progress (serves sixty_more) "https://h/a.zip"
                          "out/v1.0/a.zip" (Some 100) forty_on_disk).2)
      = (messages_of (trace forty_on_disk) ++ ms ++ [MsgNewline; verdict])%list ∧
    (verdict = MsgDone "out/v1.0/a.zip" ∨ verdict = MsgSizeMismatch "out/v1.0/a.zip") ∧
    Forall (λ m, ∃ b percent_complete sp,
              m = MsgProgress b
                    (Z.of_nat (length (on_disk forty_on_disk "out/v1.0/a.zip")) + 60)
                    percent_complete sp ∧
              Z.of_nat (length (on_disk forty_on_disk "out/v1.0/a.zip")) < b
                ≤ Z.of_nat (length (on_disk forty_on_disk "out/v1.0/a.zip")) + 60 ∧
              (0 < percent_complete)%Q ∧ (percent_complete <= 100)%Q) ms ∧
    ∃ percent_complete sp,
      List.last ms MsgNewline =
        MsgProgress (Z.of_nat (length (on_disk forty_on_disk "out/v1.0/a.zip")) + 60)
          (Z.of_nat (length (on_disk forty_on_disk "out/v1.0/a.zip")) + 60)
          percent_complete sp ∧
      (percent_complete == 100)%Q.
Proof.
  apply (progress_reports_reach_total (serves sixty_more) "https://h/a.zip"
           "out/v1.0/a.zip" (Some 100) forty_on_disk sixty_more 60).
  - intros headers. reflexivity.
  - reflexivity.
  - reflexivity.
  - reflexivity.
  - discriminate.
  - reflexivity.
Defined.

(** ** format_size and format_speed *)

Lemma Qltb_lt (a b : Q) : Qltb a b = true ↔ (a < b)%Q.
Proof.
  unfold Qltb. rewrite negb_true_iff, <- not_true_iff_false, Qle_bool_iff.
  split; [apply Qnot_le_lt|apply Qlt_not_le].
Qed.

Lemma Qltb_ge (a b : Q) : Qltb a b = false ↔ (b <= a)%Q.
Proof.
  unfold Qltb. rewrite negb_false_iff, Qle_bool_iff. done.
Qed.





(** The listing scenario: a hundred bytes are shown as 100 B, and two
    mebibytes and a half as 2.5 MB. *)
Example format_size_hundred : format_size 100 = (inject_Z 100, "B").
Proof. reflexivity. Qed.

Example format_size_mebibytes :
  (format_size 2621440).2 = "MB" ∧ ((format_size 2621440).1 == 5 # 2)%Q.
Proof. split; reflexivity. Qed.

(** X25: [format_speed] has three units and no more: the number shown
    times 1024 to the rank of the unit is the speed; a speed below 1024^2
    is shown below 1024 in B/s or KB/s, a speed of 1024 or more is never
    shown below 1, and from 1024^2 on the unit stays MB/s. *)
Theorem format_speed_scales (speed : Q) :
  ∃ k : nat,
    (k ≤ 2)%nat ∧
    (format_speed speed).2 = nth k speed_units "" ∧
    ((format_speed speed).1 * inject_Z (1024 ^ Z.of_nat k) == speed)%Q ∧
    ((speed < 1024 * 1024)%Q → (k < 2)%nat ∧ ((format_speed speed).1 < 1024)%Q) ∧
    ((1024 * 1024 <= speed)%Q → k = 2%nat) ∧
    ((1024 <= speed)%Q → (1 <= (format_speed speed).1)%Q).
Proof.
  assert (H0 : inject_Z (1024 ^ Z.of_nat 0) = 1%Q) by reflexivity.
  assert (H1 : inject_Z (1024 ^ Z.of_nat 1) = 1024%Q) by reflexivity.
  assert (H2 : (inject_Z (1024 ^ Z.of_nat 2) == 1024 * 1024)%Q) by reflexivity.
  unfold format_speed.
  destruct (Qltb speed 1024) eqn:Hb.
  - apply Qltb_lt in Hb. exists 0%nat. cbn [fst snd nth speed_units]. rewrite H0.
    split; [lia|]. split; [done|]. split; [lra|]. split; [|split].
    + intros _. split; [lia|lra].
    + intros Hs. lra.
    + intros Hs. lra.
  - apply Qltb_ge in Hb. destruct (Qltb speed (1024 * 1024)) eqn:Hk.
    + apply Qltb_lt in Hk. exists 1%nat. cbn [fst snd nth speed_units]. rewrite H1.
      split; [lia|]. split; [done|]. split; [field|]. split; [|split].
      * intros _. split; [lia|]. apply Qlt_shift_div_r; lra.
      * intros Hs. lra.
      * intros _. apply Qle_shift_div_l; lra.
    + apply Qltb_ge in Hk. exists 2%nat. cbn [fst snd nth speed_units]. rewrite H2.
      split; [lia|]. split; [done|]. split; [field|]. split; [|split].
      * intros Hs. lra.
      * done.
      * intros _. apply Qle_shift_div_l; lra.
Qed.

(** ** A target that is already complete *)

(** X26: when the target is on disk with exactly the declared size, and
    that size is not zero, the call is a skip whatever the server would
    answer: it returns, makes no request, opens no file, leaves every file
    as it is and prints only that the file already exists. *)
Theorem complete_target_left_alone (E : env) (url target_path : string)
    (declared : Z) (w : world) (c : list Byte.byte) :
  files w !! target_path = Some c →
  declared ≠ 0 →
  Z.of_nat (length c) = declared →
  (download_file_with_progress E url target_path (Some declared) w).1 = Ret tt ∧
  files (download_file_with_progress E url target_path (Some declared) w).2 = files w ∧
  requests_of (trace (download_file_with_progress E url target_path (Some declared) w).2)
    = requests_of (trace w) ∧
  opens_of (trace (download_file_with_progress E url target_path (Some declared) w).2)
    = opens_of (trace w) ∧
  messages_of (trace (download_file_with_progress E url target_path (Some declared) w).2)
    = (messages_of (trace w) ++ [MsgAlreadyExists target_path])%list.
Proof.
  intros Hp Hd Hlen.
  rewrite (complete_target_skipped E url target_path declared w c) by done.
  cbn [fst snd files trace].
  rewrite requests_of_app, opens_of_app, messages_of_app. cbn.
  by rewrite !app_nil_r.
Qed.

Lemma complete_target_left_alone_witness :
  (download_file_with_progress refuses_first "https://h/a.zip" "out/a.zip" (Some 5)
     (world_with "out/a.zip" abcde)).1 = Ret tt ∧
  files (download_file_with_progress refuses_first "https://h/a.zip" "out/a.zip" (Some 5)
           (world_with "out/a.zip" abcde)).2 = files (world_with "out/a.zip" abcde) ∧
  requests_of (trace (download_file_with_progress refuses_first "https://h/a.zip"
                        "out/a.zip" (Some 5) (world_with "out/a.zip" abcde)).2)
    = requests_of (trace (world_with "out/a.zip" abcde)) ∧
  opens_of (trace (download_file_with_progress refuses_first "https://h/a.zip"
                     "out/a.zip" (Some 5) (world_with "out/a.zip" abcde)).2)
    = opens_of (trace (world_with "out/a.zip" abcde)) ∧
  messages_of (trace (download_file_with_progress refuses_first "https://h/a.zip"
                        "out/a.zip" (Some 5) (world_with "out/a.zip" abcde)).2)
    = (messages_of (trace (world_with "out/a.zip" abcde))
       ++ [MsgAlreadyExists "out/a.zip"])%list.
Proof.
  apply (complete_target_left_alone refuses_first "https://h/a.zip" "out/a.zip" 5
           (world_with "out/a.zip" abcde) abcde).
  - reflexivity.
  - discriminate.
  - reflexivity.
Defined.
